(** * RoadGuard pothole reports: the report store, its views and the AI client

    A shallow embedding of the TypeScript sources
      - hooks/useReports.ts          (the report store),
      - components/ReportCard.tsx    (status change handler),
      - components/AuthorityPanel.tsx (assignment handler),
      - components/ReportPothole.tsx (submission flow),
      - components/Dashboard.tsx     (sorted list),
      - components/Analytics.tsx     (average resolution time),
      - services/aiService.ts        (analysis client and mock generator).

    Conventions.  A JavaScript [Date] is the integer number of milliseconds
    it holds ([getTime()]), a [Z].  Integer-valued numbers (priority) are
    [Z]; the other numbers are the rational they denote, in [Q], and the
    arithmetic on them rounds to the nearest binary64 number ([round64]).
    The one quotient left exact is that of the average resolution time,
    whose value in the code is the rounding of it.  React state
    ([useState], [setReports(prev => ...)]) is explicit state passing over
    the list of reports.  The clock ([Date.now()], [new Date()]) and
    [Math.random()] are inputs. *)

From Stdlib Require Import ZArith QArith Qround Qpower Lia Lqa.
From stdpp Require Import base tactics option list strings pretty sorting.

Local Open Scope string_scope.
Local Open Scope list_scope.
Local Open Scope Z_scope.

(** ** Data model (types.ts) *)

Inductive Severity := low | medium | high | critical.
Inductive Status := pending | in_progress | resolved | rejected.

Global Instance Severity_eq_dec : EqDecision Severity.
Proof. solve_decision. Defined.
Global Instance Status_eq_dec : EqDecision Status.
Proof. solve_decision. Defined.

Record Coordinates := mkCoordinates { lat : Q; lng : Q }.

Module Dimensions.
Record t := mk { width : Q; depth : Q; length : Q }.
End Dimensions.

(** The [aiAnalysis] member of a report. *)
Module ReportAnalysis.
Record t := mk {
  confidence : Q;
  dimensions : Dimensions.t;
  riskLevel : string
}.
End ReportAnalysis.

Module PotholeReport.
Record t := mk {
  id : string;
  location : string;
  coordinates : Coordinates;
  severity : Severity;
  status : Status;
  reportedAt : Z;
  reportedBy : string;
  description : string;
  imageUrl : option string;
  aiAnalysis : option ReportAnalysis.t;
  priority : Z;
  assignedTo : option string;
  resolvedAt : option Z
}.
End PotholeReport.

(** [Omit<PotholeReport, 'id' | 'reportedAt'>]. *)
Module Draft.
Record t := mk {
  location : string;
  coordinates : Coordinates;
  severity : Severity;
  status : Status;
  reportedBy : string;
  description : string;
  imageUrl : option string;
  aiAnalysis : option ReportAnalysis.t;
  priority : Z;
  assignedTo : option string;
  resolvedAt : option Z
}.
End Draft.

(** [Partial<PotholeReport>]: every key may be absent ([None]).  For the
    members that are themselves optional, a present key may hold
    [undefined] ([Some None]). *)
Module Partial.
Record t := mk {
  id : option string;
  location : option string;
  coordinates : option Coordinates;
  severity : option Severity;
  status : option Status;
  reportedAt : option Z;
  reportedBy : option string;
  description : option string;
  imageUrl : option (option string);
  aiAnalysis : option (option ReportAnalysis.t);
  priority : option Z;
  assignedTo : option (option string);
  resolvedAt : option (option Z)
}.
End Partial.

Abbreviation Report := PotholeReport.t.
Abbreviation Store := (list PotholeReport.t).

(** ** The report store (hooks/useReports.ts) *)

(** [n.toString()] for an integer number: its decimal numeral. *)
Definition toString (n : Z) : string := pretty n.

(** [new Date('2024-01-15T10:30:00')] and the like, as milliseconds since the
    epoch (the literals carry no zone; they are read here as UTC, which
    shifts all three seeds alike). *)
Definition date_2024_01_15_1030 : Z := 1705314600000.
Definition date_2024_01_14_1420 : Z := 1705242000000.
Definition date_2024_01_12_0915 : Z := 1705050900000.
Definition date_2024_01_13_1645 : Z := 1705164300000.

Definition pexels_1051838 : string :=
  "https://images.pexels.com/photos/1051838/pexels-photo-1051838.jpeg?auto=compress&cs=tinysrgb&w=400".
Definition pexels_2448749 : string :=
  "https://images.pexels.com/photos/2448749/pexels-photo-2448749.jpeg?auto=compress&cs=tinysrgb&w=400".

Definition mockReports : Store :=
  [ PotholeReport.mk "1" "Main Street & 5th Avenue"
      (mkCoordinates (407128 # 10000) (-740060 # 10000))
      high pending date_2024_01_15_1030 "John Doe"
      "Large pothole causing vehicle damage"
      (Some pexels_1051838)
      (Some (ReportAnalysis.mk (92 # 100) (Dimensions.mk 45 8 60) "High Risk"))
      8 None None;
    PotholeReport.mk "2" "Oak Road near School"
      (mkCoordinates (407589 # 10000) (-739851 # 10000))
      critical in_progress date_2024_01_14_1420 "Sarah Wilson"
      "Deep pothole in school zone - safety hazard"
      (Some pexels_2448749)
      (Some (ReportAnalysis.mk (96 # 100) (Dimensions.mk 55 12 70) "Critical Risk"))
      10 (Some "Mike Johnson") None;
    PotholeReport.mk "3" "Elm Street Bridge"
      (mkCoordinates (407505 # 10000) (-739934 # 10000))
      medium resolved date_2024_01_12_0915 "David Chen"
      "Medium-sized pothole affecting traffic flow"
      (Some pexels_1051838)
      (Some (ReportAnalysis.mk (88 # 100) (Dimensions.mk 30 5 40) "Medium Risk"))
      5 (Some "Lisa Brown") (Some date_2024_01_13_1645) ].

(** [{ ...report, id: Date.now().toString(), reportedAt: new Date() }];
    [now] is the reading of [Date.now()], [today] that of [new Date()]. *)
Definition newReport (now today : Z) (report : Draft.t) : Report :=
  {| PotholeReport.id := toString now;
     PotholeReport.location := Draft.location report;
     PotholeReport.coordinates := Draft.coordinates report;
     PotholeReport.severity := Draft.severity report;
     PotholeReport.status := Draft.status report;
     PotholeReport.reportedAt := today;
     PotholeReport.reportedBy := Draft.reportedBy report;
     PotholeReport.description := Draft.description report;
     PotholeReport.imageUrl := Draft.imageUrl report;
     PotholeReport.aiAnalysis := Draft.aiAnalysis report;
     PotholeReport.priority := Draft.priority report;
     PotholeReport.assignedTo := Draft.assignedTo report;
     PotholeReport.resolvedAt := Draft.resolvedAt report |}.

(** [addReport]: returns the new record and the next state
    [[newReport, ...prev]]. *)
Definition addReport (now today : Z) (report : Draft.t) (prev : Store)
  : Report * Store :=
  let r := newReport now today report in (r, r :: prev).

(** The object spread [{ ...report, ...updates }]: a key present in
    [updates] wins, an absent one keeps the report's member. *)
Definition merge (report : Report) (updates : Partial.t) : Report :=
  {| PotholeReport.id :=
       default (PotholeReport.id report) (Partial.id updates);
     PotholeReport.location :=
       default (PotholeReport.location report) (Partial.location updates);
     PotholeReport.coordinates :=
       default (PotholeReport.coordinates report) (Partial.coordinates updates);
     PotholeReport.severity :=
       default (PotholeReport.severity report) (Partial.severity updates);
     PotholeReport.status :=
       default (PotholeReport.status report) (Partial.status updates);
     PotholeReport.reportedAt :=
       default (PotholeReport.reportedAt report) (Partial.reportedAt updates);
     PotholeReport.reportedBy :=
       default (PotholeReport.reportedBy report) (Partial.reportedBy updates);
     PotholeReport.description :=
       default (PotholeReport.description report) (Partial.description updates);
     PotholeReport.imageUrl :=
       default (PotholeReport.imageUrl report) (Partial.imageUrl updates);
     PotholeReport.aiAnalysis :=
       default (PotholeReport.aiAnalysis report) (Partial.aiAnalysis updates);
     PotholeReport.priority :=
       default (PotholeReport.priority report) (Partial.priority updates);
     PotholeReport.assignedTo :=
       default (PotholeReport.assignedTo report) (Partial.assignedTo updates);
     PotholeReport.resolvedAt :=
       default (PotholeReport.resolvedAt report) (Partial.resolvedAt updates) |}.

(** [prev.map(report => report.id === id ? { ...report, ...updates } : report)] *)
Definition updateReport (id : string) (updates : Partial.t) (prev : Store)
  : Store :=
  (λ report,
     if decide (PotholeReport.id report = id)
     then merge report updates else report) <$> prev.

(** [prev.filter(report => report.id !== id)] *)
Definition deleteReport (id : string) (prev : Store) : Store :=
  filter (λ report, PotholeReport.id report ≠ id) prev.

(** One call of [addReport], with the clock readings it takes. *)
Record Create := mkCreate {
  create_now : Z;
  create_today : Z;
  create_draft : Draft.t
}.

(** A sequence of [addReport] calls: the records returned, in call order,
    and the final state. *)
Fixpoint addReports (calls : list Create) (prev : Store)
  : list Report * Store :=
  match calls with
  | [] => ([], prev)
  | c :: calls' =>
      let '(r, s) :=
        addReport (create_now c) (create_today c) (create_draft c) prev in
      let '(rs, s') := addReports calls' s in
      (r :: rs, s')
  end.

(** The draft a record was made from: the record without [id] and
    [reportedAt]. *)
Definition draftOf (r : Report) : Draft.t :=
  {| Draft.location := PotholeReport.location r;
     Draft.coordinates := PotholeReport.coordinates r;
     Draft.severity := PotholeReport.severity r;
     Draft.status := PotholeReport.status r;
     Draft.reportedBy := PotholeReport.reportedBy r;
     Draft.description := PotholeReport.description r;
     Draft.imageUrl := PotholeReport.imageUrl r;
     Draft.aiAnalysis := PotholeReport.aiAnalysis r;
     Draft.priority := PotholeReport.priority r;
     Draft.assignedTo := PotholeReport.assignedTo r;
     Draft.resolvedAt := PotholeReport.resolvedAt r |}.

Definition ids (s : Store) : list string := PotholeReport.id <$> s.

(** The operations of the store, as the views and a caller can issue them. *)
Inductive StoreOp :=
| OpAdd (now today : Z) (report : Draft.t)
| OpUpdate (id : string) (updates : Partial.t)
| OpDelete (id : string).

Definition step (s : Store) (op : StoreOp) : Store :=
  match op with
  | OpAdd now today report => snd (addReport now today report s)
  | OpUpdate id updates => updateReport id updates s
  | OpDelete id => deleteReport id s
  end.

Definition run (ops : list StoreOp) (s : Store) : Store := foldl step s ops.

(** The identifiers a sequence of operations deletes. *)
Fixpoint deleted (ops : list StoreOp) : list string :=
  match ops with
  | [] => []
  | OpDelete id :: ops' => id :: deleted ops'
  | _ :: ops' => deleted ops'
  end.

(** An update that carries neither an [id] nor a [reportedAt] key. *)
Definition keepsIdentity (op : StoreOp) : Prop :=
  match op with
  | OpUpdate _ updates =>
      Partial.id updates = None ∧ Partial.reportedAt updates = None
  | _ => True
  end.

(** Identifier and creation timestamp of a report. *)
Definition identity (r : Report) : string * Z :=
  (PotholeReport.id r, PotholeReport.reportedAt r).

(** [p] is the identifier and creation timestamp that an [addReport] among
    [ops] assigns. *)
Definition createdBy (ops : list StoreOp) (p : string * Z) : Prop :=
  ∃ now today report,
    OpAdd now today report ∈ ops ∧ p = (toString now, today).

(** ** ReportCard.tsx *)

Module ReportCard.
(** [updates.resolvedAt = new Date()] *)
Definition set_resolvedAt (d : Z) (updates : Partial.t) : Partial.t :=
  {| Partial.id := Partial.id updates;
     Partial.location := Partial.location updates;
     Partial.coordinates := Partial.coordinates updates;
     Partial.severity := Partial.severity updates;
     Partial.status := Partial.status updates;
     Partial.reportedAt := Partial.reportedAt updates;
     Partial.reportedBy := Partial.reportedBy updates;
     Partial.description := Partial.description updates;
     Partial.imageUrl := Partial.imageUrl updates;
     Partial.aiAnalysis := Partial.aiAnalysis updates;
     Partial.priority := Partial.priority updates;
     Partial.assignedTo := Partial.assignedTo updates;
     Partial.resolvedAt := Some (Some d) |}.

(** The [updates] object [handleStatusChange] builds; [today] is the
    reading of [new Date()]. *)
Definition statusUpdates (today : Z) (newStatus : Status) : Partial.t :=
  let updates :=
    Partial.mk None None None None (Some newStatus) None None None None None
               None None None in
  if decide (newStatus = resolved) then set_resolvedAt today updates
  else updates.

(** [handleStatusChange], for the card of [report], with [onUpdate] the
    store's update. *)
Definition handleStatusChange
    (onUpdate : string → Partial.t → Store → Store)
    (report : Report) (today : Z) (newStatus : Status) : Store → Store :=
  onUpdate (PotholeReport.id report) (statusUpdates today newStatus).
End ReportCard.

(** ** AuthorityPanel.tsx *)

Module AuthorityPanel.
(** [{ assignedTo: assignee, status: 'in-progress' }] *)
Definition assignUpdates (assignee : string) : Partial.t :=
  Partial.mk None None None None (Some in_progress) None None None None None
             None (Some (Some assignee)) None.

Definition handleAssign
    (onUpdateReport : string → Partial.t → Store → Store)
    (reportId assignee : string) : Store → Store :=
  onUpdateReport reportId (assignUpdates assignee).

(** [{ priority }] *)
Definition priorityUpdates (priority : Z) : Partial.t :=
  Partial.mk None None None None None None None None None None
             (Some priority) None None.

Definition handlePriorityChange
    (onUpdateReport : string → Partial.t → Store → Store)
    (reportId : string) (priority : Z) : Store → Store :=
  onUpdateReport reportId (priorityUpdates priority).
End AuthorityPanel.

(** ** aiService.ts *)

Module ImageDimensions.
Record t := mk { width : Q; height : Q }.
End ImageDimensions.

Module AIAnalysis.
Record t := mk {
  confidence : Q;
  severity : Severity;
  severity_confidence : Q;
  dimensions : Dimensions.t;
  riskLevel : string;
  risk_score : Q;
  priority : Q;
  area : Q;
  volume : Q;
  filename : option string;
  file_size : option Q;
  image_dimensions : option ImageDimensions.t
}.
End AIAnalysis.

(** [Math.floor] and [Math.round] (round half up) on the rational a number
    denotes; both are exact. *)
Definition Math_floor (x : Q) : Z := Qfloor x.
Definition Math_round (x : Q) : Z := Qfloor (x + (1 # 2)).

(** *** Binary64 arithmetic

    A finite number is the rational it denotes.  A sum, product or
    quotient is the exact result rounded to the nearest binary64 number,
    ties to even: 53 significant bits, and no last place finer than that
    of the subnormal numbers, [2^-1074].  (Results beyond the largest
    binary64 number would be infinite; nothing here comes near them.) *)

(** [2^e] *)
Definition pow2 (e : Z) : Q := Qpower 2 e.

(** For [x > 0], the [e] with [2^(e-1) <= x < 2^e]. *)
Definition mag (x : Q) : Z :=
  let k := Z.log2 (Qnum x) - Z.log2 (Zpos (Qden x)) in
  if Qle_bool (pow2 k) x then k + 1 else k.

(** The exponent of the last place of the binary64 numbers around [x]. *)
Definition cexp (x : Q) : Z := Z.max (mag x - 53) (-1074).

(** Rounding to the nearest integer, ties to even. *)
Definition rne (x : Q) : Z :=
  let f := Qfloor x in
  match Qcompare (x - inject_Z f) (1 # 2) with
  | Lt => f
  | Gt => f + 1
  | Eq => if Z.even f then f else f + 1
  end.

Definition round64_pos (x : Q) : Q :=
  (inject_Z (rne (x * pow2 (- cexp x))) * pow2 (cexp x))%Q.

(** The binary64 number nearest to [x]. *)
Definition round64 (x : Q) : Q :=
  match Qcompare x 0 with
  | Eq => 0%Q
  | Gt => round64_pos x
  | Lt => (- round64_pos (- x))%Q
  end.

(** A decimal literal of the source, such as [0.2]: the binary64 number
    nearest to it. *)
Definition literal (x : Q) : Q := round64 x.

(** What [Math.random()] can return: a binary64 number in [0, 1), that is
    [m * 2^e] with a mantissa below [2^53] and an exponent from that of the
    subnormal numbers up to [-53]. *)
Definition draw (r : Q) : Prop :=
  ∃ m e : Z, (r == inject_Z m * pow2 e)%Q
             ∧ 0 <= m < 2 ^ 53 ∧ -1074 <= e <= -53.

(** The largest binary64 number below 1. *)
Definition largestDraw : Q := (1 - pow2 (-53))%Q.

(** [array[i]] for an integer [i]: [undefined] ([None]) outside the bounds. *)
Definition at_index {A} (array : list A) (i : Z) : option A :=
  if i <? 0 then None else array !! Z.to_nat i.

(** What a [catch] clause can receive: an error made by axios
    ([axios.isAxiosError(error)] holds) with its [code], or any other
    error ([new Error(...)], a [TypeError]). *)
Inductive JsError :=
| AxiosError (code : option string) (message : string)
| Error (message : string).

(** How an [async] function settles. *)
Inductive Settled (A : Type) :=
| Returns (a : A)
| Throws (e : JsError).
Arguments Returns {A} a.
Arguments Throws {A} e.



Module AIService.
Definition severities : list Severity := [low; medium; high; critical].
Definition riskLevels : list string :=
  ["Low Risk"; "Medium Risk"; "High Risk"; "Critical Risk"].

(** [getMockAnalysis]; [random k] is the k-th value [Math.random()]
    returns and [n] the number of values drawn so far.  The draws are taken
    in the source's evaluation order, and every sum and product is rounded
    as binary64 arithmetic rounds it.  Reading an array outside its bounds
    would give [undefined], which is no [AIAnalysis]: [None]. *)
Definition getMockAnalysis (random : nat → Q) (n : nat)
  : option AIAnalysis.t * nat :=
  let severity :=
    at_index severities
      (Math_floor
         (round64 (random n * inject_Z (Z.of_nat (length severities))))) in
  let riskLevel :=
    at_index riskLevels
      (Math_floor
         (round64 (random (n + 1)%nat
                   * inject_Z (Z.of_nat (length riskLevels))))) in
  let width :=
    inject_Z (Math_round (round64 (20 + round64 (random (n + 2)%nat * 50)))) in
  let length :=
    inject_Z (Math_round (round64 (25 + round64 (random (n + 3)%nat * 60)))) in
  let depth :=
    inject_Z (Math_round (round64 (3 + round64 (random (n + 4)%nat * 15)))) in
  (severity ← severity;
   riskLevel ← riskLevel;
   Some {|
     AIAnalysis.confidence :=
       round64 (literal (75 # 100)
                + round64 (random (n + 5)%nat * literal (2 # 10)));
     AIAnalysis.severity := severity;
     AIAnalysis.severity_confidence :=
       round64 (literal (8 # 10)
                + round64 (random (n + 6)%nat * literal (15 # 100)));
     AIAnalysis.dimensions :=
       {| Dimensions.width := width;
          Dimensions.length := length;
          Dimensions.depth := depth |};
     AIAnalysis.riskLevel := riskLevel;
     AIAnalysis.risk_score := random (n + 7)%nat;
     AIAnalysis.priority :=
       inject_Z (Math_floor (round64 (1 + round64 (random (n + 8)%nat * 10))));
     AIAnalysis.area := round64 (width * length);
     AIAnalysis.volume := round64 (round64 (width * length) * depth);
     AIAnalysis.filename := Some "mock_analysis.jpg";
     AIAnalysis.file_size := Some 245760%Q;
     AIAnalysis.image_dimensions :=
       Some {| ImageDimensions.width := 800%Q;
               ImageDimensions.height := 600%Q |}
   |},
   (n + 9)%nat).



End AIService.





(** ** ReportPothole.tsx *)

Module ReportPothole.
Record FormData := mkFormData {
  location : string;
  description : string;
  severity : Severity;
  reportedBy : string;
  coordinates : Coordinates
}.

(** The component state [handleSubmit] reads or resets. *)
Record State := mkState {
  formData : FormData;
  imagePreview : string;
  analysisComplete : bool;
  aiAnalysis : option AIAnalysis.t
}.

Definition defaultImage : string := pexels_1051838.

(** The argument [handleSubmit] passes to [onSubmit]. *)
Definition submitted (st : State) : Draft.t :=
  let priority :=
    if decide (severity (formData st) = critical) then 10
    else if decide (severity (formData st) = high) then 8
    else if decide (severity (formData st) = medium) then 5 else 3 in
  {| Draft.location := location (formData st);
     Draft.description := description (formData st);
     Draft.severity := severity (formData st);
     Draft.reportedBy := reportedBy (formData st);
     Draft.coordinates := coordinates (formData st);
     Draft.status := pending;
     Draft.imageUrl :=
       Some (if String.eqb (imagePreview st) "" then defaultImage
             else imagePreview st);
     Draft.aiAnalysis :=
       match aiAnalysis st with
       | Some a =>
           Some {| ReportAnalysis.confidence := AIAnalysis.confidence a;
                   ReportAnalysis.dimensions := AIAnalysis.dimensions a;
                   ReportAnalysis.riskLevel := AIAnalysis.riskLevel a |}
       | None => None
       end;
     Draft.priority := priority;
     Draft.assignedTo := None;
     Draft.resolvedAt := None |}.

(** The state after the form is reset. *)
Definition reset : State :=
  {| formData := mkFormData "" "" medium "" (mkCoordinates 0 0);
     imagePreview := "";
     analysisComplete := false;
     aiAnalysis := None |}.

(** [handleSubmit]: calls [onSubmit] on the draft, then resets the form. *)
Definition handleSubmit {W} (onSubmit : Draft.t → W → W) (st : State) (w : W)
  : State * W :=
  (reset, onSubmit (submitted st) w).
End ReportPothole.

(** ** App.tsx *)

Module App.
Inductive ActiveTab := dashboard | report | authority | analytics.

Record State := mkState {
  activeTab : ActiveTab;
  reports : Store
}.

(** [handleReportSubmit]: [addReport(reportData); setActiveTab('dashboard')],
    with the clock readings [addReport] takes. *)
Definition handleReportSubmit (now today : Z) (reportData : Draft.t)
    (app : State) : State :=
  {| activeTab := dashboard;
     reports := snd (addReport now today reportData (reports app)) |}.
End App.

(** ** Dashboard.tsx *)

(** [Array.prototype.sort(comparefn)] on a copy of the array.  The language
    requires the sort to be stable; for a comparator that is a consistent
    ordering this fixes the result, which the stable insertion sort below
    computes. *)
Fixpoint sort_insert {A} (comparefn : A → A → Z) (x : A) (sorted : list A)
  : list A :=
  match sorted with
  | [] => [x]
  | y :: ys =>
      if comparefn x y <=? 0 then x :: y :: ys
      else y :: sort_insert comparefn x ys
  end.

Definition Array_sort {A} (comparefn : A → A → Z) (array : list A) : list A :=
  foldr (sort_insert comparefn) [] array.

Module Dashboard.
(** The comparator of [sortedReports]. *)
Definition comparefn (a b : Report) : Z :=
  if decide (PotholeReport.priority a ≠ PotholeReport.priority b)
  then PotholeReport.priority b - PotholeReport.priority a
  else PotholeReport.reportedAt b - PotholeReport.reportedAt a.

Definition sortedReports (reports : Store) : Store :=
  Array_sort comparefn reports.
End Dashboard.

(** [a] may stand before [b] in the dashboard: higher priority first, and
    among equal priorities the more recent first. *)
Definition before (a b : Report) : Prop :=
  PotholeReport.priority a > PotholeReport.priority b
  ∨ (PotholeReport.priority a = PotholeReport.priority b
     ∧ PotholeReport.reportedAt a >= PotholeReport.reportedAt b).

(** ** Analytics.tsx *)

Module Analytics.
Definition msPerDay : Z := 1000 * 60 * 60 * 24.

(** [Math.floor((r.resolvedAt!.getTime() - r.reportedAt.getTime()) / msPerDay)];
    without a [resolvedAt] the call of [getTime] throws: [None]. *)
Definition days (r : Report) : option Z :=
  resolvedAt ← PotholeReport.resolvedAt r;
  Some (Math_floor (inject_Z (resolvedAt - PotholeReport.reportedAt r)
                    / inject_Z msPerDay)).

(** [avgResolutionTime]; [None] would be an exception thrown while
    reducing. *)
Definition avgResolutionTime (reports : Store) : option Q :=
  let resolvedReports :=
    length (filter (λ r, PotholeReport.status r = resolved) reports) in
  if decide (0 < resolvedReports)%nat then
    total ←
      foldl (λ sum r, sum ← sum; d ← days r; Some (sum + d)) (Some 0)
        (filter (λ r, PotholeReport.status r = resolved
                      ∧ is_Some (PotholeReport.resolvedAt r)) reports);
    Some (inject_Z total / inject_Z (Z.of_nat resolvedReports))%Q
  else Some 0%Q.
End Analytics.

(** The resolution time of a report in whole days, when it has a
    resolution timestamp. *)
Definition wholeDays (r : Report) : option Z :=
  (λ resolvedAt, (resolvedAt - PotholeReport.reportedAt r) `div` Analytics.msPerDay)
    <$> PotholeReport.resolvedAt r.

(** Following the specification: the mean, over the reports with status
    resolved, of resolution timestamp minus creation timestamp in whole
    days, and 0 when there is no resolved report. *)
Definition meanResolutionDays (reports : Store) : Q :=
  let resolvedDays :=
    omap wholeDays (filter (λ r, PotholeReport.status r = resolved) reports) in
  match resolvedDays with
  | [] => 0%Q
  | _ => (inject_Z (foldr Z.add 0%Z resolvedDays)
          / inject_Z (Z.of_nat (length resolvedDays)))%Q
  end.

(** ** Sample inputs *)

(** The record one call creates. *)
Definition created (c : Create) : Report :=
  newReport (create_now c) (create_today c) (create_draft c).

Definition sampleDraft : Draft.t :=
  {| Draft.location := "Pine Street";
     Draft.coordinates := mkCoordinates (407128 # 10000) (-740060 # 10000);
     Draft.severity := low;
     Draft.status := pending;
     Draft.reportedBy := "Ann Lee";
     Draft.description := "Small crack";
     Draft.imageUrl := None;
     Draft.aiAnalysis := None;
     Draft.priority := 3;
     Draft.assignedTo := None;
     Draft.resolvedAt := None |}.

Definition sampleCalls : list Create :=
  [ mkCreate 1706000000000 1706000000000 sampleDraft;
    mkCreate 1706000000001 1706000000002 sampleDraft ].

(** ** Vocabulary of the statements *)

(** A member after a merge: the given value when the key is present in the
    update, the old value otherwise. *)
Definition given {A} (old : A) (upd : option A) (new : A) : Prop :=
  match upd with
  | Some v => new = v
  | None => new = old
  end.

(** [r'] is [r] with exactly the members present in [u] replaced. *)
Definition mergedFrom (r : Report) (u : Partial.t) (r' : Report) : Prop :=
  given (PotholeReport.id r) (Partial.id u) (PotholeReport.id r')
  ∧ given (PotholeReport.location r) (Partial.location u) (PotholeReport.location r')
  ∧ given (PotholeReport.coordinates r) (Partial.coordinates u) (PotholeReport.coordinates r')
  ∧ given (PotholeReport.severity r) (Partial.severity u) (PotholeReport.severity r')
  ∧ given (PotholeReport.status r) (Partial.status u) (PotholeReport.status r')
  ∧ given (PotholeReport.reportedAt r) (Partial.reportedAt u) (PotholeReport.reportedAt r')
  ∧ given (PotholeReport.reportedBy r) (Partial.reportedBy u) (PotholeReport.reportedBy r')
  ∧ given (PotholeReport.description r) (Partial.description u) (PotholeReport.description r')
  ∧ given (PotholeReport.imageUrl r) (Partial.imageUrl u) (PotholeReport.imageUrl r')
  ∧ given (PotholeReport.aiAnalysis r) (Partial.aiAnalysis u) (PotholeReport.aiAnalysis r')
  ∧ given (PotholeReport.priority r) (Partial.priority u) (PotholeReport.priority r')
  ∧ given (PotholeReport.assignedTo r) (Partial.assignedTo u) (PotholeReport.assignedTo r')
  ∧ given (PotholeReport.resolvedAt r) (Partial.resolvedAt u) (PotholeReport.resolvedAt r').

(** An update that rewrites the identifier and the creation timestamp. *)
Definition renaming : Partial.t :=
  Partial.mk (Some "x") None None None None (Some 0) None None None None
             None None None.

(** Every resolved report carries a resolution timestamp. *)
Definition resolvedStamped (reports : Store) : Prop :=
  Forall (λ r, PotholeReport.status r = resolved →
               is_Some (PotholeReport.resolvedAt r)) reports.

(** A status update to resolved that carries no [resolvedAt]. *)
Definition resolveUnstamped : Partial.t :=
  Partial.mk None None None None (Some resolved) None None None None None
             None None None.

(** [r] with its status and resolution timestamp replaced, every other
    member kept. *)
Definition withStatus (status : Status) (resolvedAt : option Z) (r : Report)
  : Report :=
  {| PotholeReport.id := PotholeReport.id r;
     PotholeReport.location := PotholeReport.location r;
     PotholeReport.coordinates := PotholeReport.coordinates r;
     PotholeReport.severity := PotholeReport.severity r;
     PotholeReport.status := status;
     PotholeReport.reportedAt := PotholeReport.reportedAt r;
     PotholeReport.reportedBy := PotholeReport.reportedBy r;
     PotholeReport.description := PotholeReport.description r;
     PotholeReport.imageUrl := PotholeReport.imageUrl r;
     PotholeReport.aiAnalysis := PotholeReport.aiAnalysis r;
     PotholeReport.priority := PotholeReport.priority r;
     PotholeReport.assignedTo := PotholeReport.assignedTo r;
     PotholeReport.resolvedAt := resolvedAt |}.

(** [r] with its assignee and status replaced, every other member kept. *)
Definition withAssignment (assignedTo : option string) (status : Status)
    (r : Report) : Report :=
  {| PotholeReport.id := PotholeReport.id r;
     PotholeReport.location := PotholeReport.location r;
     PotholeReport.coordinates := PotholeReport.coordinates r;
     PotholeReport.severity := PotholeReport.severity r;
     PotholeReport.status := status;
     PotholeReport.reportedAt := PotholeReport.reportedAt r;
     PotholeReport.reportedBy := PotholeReport.reportedBy r;
     PotholeReport.description := PotholeReport.description r;
     PotholeReport.imageUrl := PotholeReport.imageUrl r;
     PotholeReport.aiAnalysis := PotholeReport.aiAnalysis r;
     PotholeReport.priority := PotholeReport.priority r;
     PotholeReport.assignedTo := assignedTo;
     PotholeReport.resolvedAt := PotholeReport.resolvedAt r |}.

(** The key of a member of an update, when it is present. *)
Definition key {A} (name : string) (member : option A) : list string :=
  match member with
  | Some _ => [name]
  | None => []
  end.

(** The keys present in an update, in the order of the record. *)
Definition keys (u : Partial.t) : list string :=
  key "id" (Partial.id u)
  ++ key "location" (Partial.location u)
  ++ key "coordinates" (Partial.coordinates u)
  ++ key "severity" (Partial.severity u)
  ++ key "status" (Partial.status u)
  ++ key "reportedAt" (Partial.reportedAt u)
  ++ key "reportedBy" (Partial.reportedBy u)
  ++ key "description" (Partial.description u)
  ++ key "imageUrl" (Partial.imageUrl u)
  ++ key "aiAnalysis" (Partial.aiAnalysis u)
  ++ key "priority" (Partial.priority u)
  ++ key "assignedTo" (Partial.assignedTo u)
  ++ key "resolvedAt" (Partial.resolvedAt u).

(** [r] with the given priority and creation timestamp. *)
Definition ranked (priority reportedAt : Z) (r : Report) : Report :=
  {| PotholeReport.id := PotholeReport.id r;
     PotholeReport.location := PotholeReport.location r;
     PotholeReport.coordinates := PotholeReport.coordinates r;
     PotholeReport.severity := PotholeReport.severity r;
     PotholeReport.status := PotholeReport.status r;
     PotholeReport.reportedAt := reportedAt;
     PotholeReport.reportedBy := PotholeReport.reportedBy r;
     PotholeReport.description := PotholeReport.description r;
     PotholeReport.imageUrl := PotholeReport.imageUrl r;
     PotholeReport.aiAnalysis := PotholeReport.aiAnalysis r;
     PotholeReport.priority := priority;
     PotholeReport.assignedTo := PotholeReport.assignedTo r;
     PotholeReport.resolvedAt := PotholeReport.resolvedAt r |}.

(** [x] is an integer between [lo] and [hi]. *)
Definition integerIn (lo hi : Z) (x : Q) : Prop :=
  ∃ z : Z, x = inject_Z z ∧ lo <= z <= hi.

(** The ranges of a mock analysis. *)
Definition mockRanges (a : AIAnalysis.t) : Prop :=
  ((75 # 100) <= AIAnalysis.confidence a <= (95 # 100))%Q
  ∧ ((80 # 100) <= AIAnalysis.severity_confidence a <= (95 # 100))%Q
  ∧ integerIn 20 70 (Dimensions.width (AIAnalysis.dimensions a))
  ∧ integerIn 25 85 (Dimensions.length (AIAnalysis.dimensions a))
  ∧ integerIn 3 18 (Dimensions.depth (AIAnalysis.dimensions a))
  ∧ (0 <= AIAnalysis.risk_score a <= 1)%Q
  ∧ integerIn 1 10 (AIAnalysis.priority a)
  ∧ (AIAnalysis.area a
     == Dimensions.width (AIAnalysis.dimensions a)
        * Dimensions.length (AIAnalysis.dimensions a))%Q
  ∧ (AIAnalysis.volume a
     == Dimensions.width (AIAnalysis.dimensions a)
        * Dimensions.length (AIAnalysis.dimensions a)
        * Dimensions.depth (AIAnalysis.dimensions a))%Q
  ∧ (0 < AIAnalysis.area a)%Q
  ∧ (0 < AIAnalysis.volume a)%Q.



(** A source of draws that always returns one half. *)
Definition halves : nat → Q := λ _, 1 # 2.



(** ** More of the store's callers and views *)

(** The object spread [{ ...u1, ...u2 }] of two updates: a key of [u2]
    wins over the same key of [u1]. *)
Definition later {A} (o1 o2 : option A) : option A :=
  match o2 with
  | Some v => Some v
  | None => o1
  end.

Definition overlay (u1 u2 : Partial.t) : Partial.t :=
  {| Partial.id := later (Partial.id u1) (Partial.id u2);
     Partial.location := later (Partial.location u1) (Partial.location u2);
     Partial.coordinates := later (Partial.coordinates u1) (Partial.coordinates u2);
     Partial.severity := later (Partial.severity u1) (Partial.severity u2);
     Partial.status := later (Partial.status u1) (Partial.status u2);
     Partial.reportedAt := later (Partial.reportedAt u1) (Partial.reportedAt u2);
     Partial.reportedBy := later (Partial.reportedBy u1) (Partial.reportedBy u2);
     Partial.description := later (Partial.description u1) (Partial.description u2);
     Partial.imageUrl := later (Partial.imageUrl u1) (Partial.imageUrl u2);
     Partial.aiAnalysis := later (Partial.aiAnalysis u1) (Partial.aiAnalysis u2);
     Partial.priority := later (Partial.priority u1) (Partial.priority u2);
     Partial.assignedTo := later (Partial.assignedTo u1) (Partial.assignedTo u2);
     Partial.resolvedAt := later (Partial.resolvedAt u1) (Partial.resolvedAt u2) |}.

(** What a user can do in the views (App.tsx wires [addReport] to the
    report form and [updateReport] to the dashboard's cards and to the
    authority panel). *)
Inductive ViewAction :=
| Submit (st : ReportPothole.State) (now today : Z)
| ChangeStatus (report : Report) (today : Z) (newStatus : Status)
| Assign (reportId assignee : string)
| ChangePriority (reportId : string) (priority : Z).

Definition act (s : Store) (a : ViewAction) : Store :=
  match a with
  | Submit st now today =>
      App.reports
        (snd (ReportPothole.handleSubmit (App.handleReportSubmit now today) st
                (App.mkState App.report s)))
  | ChangeStatus report today newStatus =>
      ReportCard.handleStatusChange updateReport report today newStatus s
  | Assign reportId assignee =>
      AuthorityPanel.handleAssign updateReport reportId assignee s
  | ChangePriority reportId priority =>
      AuthorityPanel.handlePriorityChange updateReport reportId priority s
  end.

(** A priority the authority panel's select offers: 1 to 10. *)
Definition offered (a : ViewAction) : Prop :=
  match a with
  | ChangePriority _ priority => 1 <= priority <= 10
  | _ => True
  end.

(** ** Dashboard.tsx: the tiles *)

Module Stats.
Record t := mk {
  total : nat;
  pending : nat;
  inProgress : nat;
  resolved : nat;
  critical : nat
}.
End Stats.

(** [stats] of the dashboard. *)
Definition dashboardStats (reports : Store) : Stats.t :=
  {| Stats.total := length reports;
     Stats.pending :=
       length (filter (λ r, PotholeReport.status r = pending) reports);
     Stats.inProgress :=
       length (filter (λ r, PotholeReport.status r = in_progress) reports);
     Stats.resolved :=
       length (filter (λ r, PotholeReport.status r = resolved) reports);
     Stats.critical :=
       length (filter (λ r, PotholeReport.severity r = critical) reports) |}.

(** ** AuthorityPanel.tsx: the filters *)

Module Filter.
Inductive t := all | pending | in_progress | critical.

(** The string the filter holds. *)
Definition name (f : t) : string :=
  match f with
  | all => "all"
  | pending => "pending"
  | in_progress => "in-progress"
  | critical => "critical"
  end.
End Filter.

(** The string a status is. *)
Definition statusName (s : Status) : string :=
  match s with
  | pending => "pending"
  | in_progress => "in-progress"
  | resolved => "resolved"
  | rejected => "rejected"
  end.

(** The predicate of [filteredReports]. *)
Definition shown (f : Filter.t) (report : Report) : bool :=
  if String.eqb (Filter.name f) "all" then true
  else if String.eqb (Filter.name f) "critical"
       then bool_decide (PotholeReport.severity report = critical)
       else String.eqb (statusName (PotholeReport.status report)) (Filter.name f).

Definition filteredReports (f : Filter.t) (reports : Store) : Store :=
  filter (λ report, shown f report) reports.

Definition urgentReports (reports : Store) : Store :=
  filter (λ r, PotholeReport.severity r = critical
               ∧ PotholeReport.status r ≠ resolved) reports.

(** ** Analytics.tsx: the other figures *)

Module SeverityStats.
Record t := mk { critical : nat; high : nat; medium : nat; low : nat }.
End SeverityStats.

Module MonthData.
Record t := mk { month : string; reports : Z; resolved : Z }.
End MonthData.

Module AnalyticsView.
Definition totalReports (reports : Store) : nat := length reports.

Definition resolvedReports (reports : Store) : nat :=
  length (filter (λ r, PotholeReport.status r = resolved) reports).

(** The resolution rate shown, in percent:
    [totalReports > 0 ? Math.round((resolvedReports / totalReports) * 100) : 0]. *)
Definition resolutionRate (reports : Store) : Z :=
  if decide (0 < totalReports reports)%nat
  then Math_round
         (round64
            (round64 (inject_Z (Z.of_nat (resolvedReports reports))
                      / inject_Z (Z.of_nat (totalReports reports)))
             * 100))
  else 0.

Definition severityStats (reports : Store) : SeverityStats.t :=
  {| SeverityStats.critical :=
       length (filter (λ r, PotholeReport.severity r = critical) reports);
     SeverityStats.high :=
       length (filter (λ r, PotholeReport.severity r = high) reports);
     SeverityStats.medium :=
       length (filter (λ r, PotholeReport.severity r = medium) reports);
     SeverityStats.low :=
       length (filter (λ r, PotholeReport.severity r = low) reports) |}.

Definition months : list string := ["Jan"; "Feb"; "Mar"; "Apr"; "May"; "Jun"].

(** [months.map(month => ({ month, reports: ..., resolved: ... }))], two
    draws a month; [random k] is the k-th value of [Math.random()] and [n]
    the number of values drawn so far. *)
Fixpoint monthlyDataFrom (random : nat → Q) (n : nat) (ms : list string)
  : list MonthData.t * nat :=
  match ms with
  | [] => ([], n)
  | month :: ms' =>
      let data :=
        {| MonthData.month := month;
           MonthData.reports := Math_floor (round64 (random n * 20)) + 5;
           MonthData.resolved :=
             Math_floor (round64 (random (n + 1)%nat * 15)) + 3 |} in
      let '(rest, n') := monthlyDataFrom random (n + 2)%nat ms' in
      (data :: rest, n')
  end.

Definition monthlyData (random : nat → Q) (n : nat) : list MonthData.t * nat :=
  monthlyDataFrom random n months.
End AnalyticsView.

(** ** aiService.ts: the other calls *)

(** How a request of [apiClient] settles, for a payload of type [D]: with
    a response, whose [data] may be missing, or with an error. *)
Inductive Reply (D : Type) :=
| Fulfilled (data : option D)
| Failed (e : JsError).
Arguments Fulfilled {D} data.
Arguments Failed {D} e.

(** The payload of [/health]; [model_available] is the truthiness of the
    member. *)
Record HealthData := mkHealth {
  health_status : string;
  model_available : bool
}.

(** [ModelInfo], of which only the flag matters here. *)
Record ModelInfo := mkModelInfo {
  info_model_available : bool;
  info_model_path : option string
}.

(** The payload of [/analyze-pothole-batch]; a missing [results] is
    [None]. *)
Record BatchData := mkBatch {
  batch_success : bool;
  batch_results : option (list AIAnalysis.t)
}.

(** The payload of [/sample-analysis]. *)
Record SampleData := mkSample { sample_analysis : option AIAnalysis.t }.

(** The payload of [/train-model]. *)
Record TrainData := mkTrain { train_success : bool }.

(** Reading a member of [response.data]: a [TypeError] when there is no
    data. *)
Definition dataOf {D} (reply : Reply D) : JsError + D :=
  match reply with
  | Failed e => inl e
  | Fulfilled None => inl (Error "Cannot read properties of undefined")
  | Fulfilled (Some data) => inr data
  end.

Module AIClient.
(** [checkHealth] *)
Definition checkHealth (reply : Reply HealthData) : Settled bool :=
  match dataOf reply with
  | inr data =>
      Returns (String.eqb (health_status data) "healthy" && model_available data)
  | inl _ => Returns false
  end.

(** [getModelInfo]: [return response.data] reads no member, so a response
    without data returns [undefined]. *)
Definition getModelInfo (reply : Reply ModelInfo) : Settled (option ModelInfo) :=
  match reply with
  | Fulfilled data => Returns data
  | Failed _ => Throws (Error "Failed to get AI model information")
  end.

(** [analyzePotholeBatch]: [response.data.results || []]. *)
Definition analyzePotholeBatch (reply : Reply BatchData)
  : Settled (list AIAnalysis.t) :=
  let tried : JsError + list AIAnalysis.t :=
    match dataOf reply with
    | inl e => inl e
    | inr data =>
        if negb (batch_success data) then inl (Error "Batch analysis failed")
        else inr (default [] (batch_results data))
    end in
  match tried with
  | inr results => Returns results
  | inl _ => Throws (Error "Failed to analyze pothole images in batch")
  end.

(** [getSampleAnalysis] *)
Definition getSampleAnalysis (reply : Reply SampleData) (random : nat → Q)
    (n : nat) : Settled (option AIAnalysis.t) * nat :=
  match dataOf reply with
  | inr data => (Returns (sample_analysis data), n)
  | inl _ =>
      let '(a, n') := AIService.getMockAnalysis random n in (Returns a, n')
  end.

(** [trainModel] *)
Definition trainModel (reply : Reply TrainData) : Settled bool :=
  match dataOf reply with
  | inr data => Returns (train_success data)
  | inl _ => Returns false
  end.
End AIClient.

(** ** ReportPothole.tsx: image upload and analysis *)

(** An uploaded file, with the data URL [readAsDataURL] reads from it. *)
Record File := mkFile { file_name : string; file_dataUrl : string }.

Module Upload.
(** The component's state: the part [handleSubmit] uses, and the rest. *)
Record View := mkView {
  state : ReportPothole.State;
  image : option File;
  analyzing : bool;
  analysisError : string
}.

(** The state on mount. *)
Definition initial : View :=
  {| state := ReportPothole.reset;
     image := None;
     analyzing := false;
     analysisError := "" |}.

(** [handleImageUpload] up to the start of the read: [setImage(file)] when
    a file was chosen. *)
Definition handleImageUpload (file : option File) (v : View) : View :=
  match file with
  | Some f =>
      {| state := state v; image := Some f;
         analyzing := analyzing v; analysisError := analysisError v |}
  | None => v
  end.

(** [reader.onload]: [setImagePreview(reader.result)], then
    [performAIAnalysis(file)] up to its [await]. *)
Definition readerLoaded (file : File) (v : View) : View :=
  {| state :=
       {| ReportPothole.formData := ReportPothole.formData (state v);
          ReportPothole.imagePreview := file_dataUrl file;
          ReportPothole.analysisComplete := false;
          ReportPothole.aiAnalysis := ReportPothole.aiAnalysis (state v) |};
     image := image v;
     analyzing := true;
     analysisError := "" |}.

(** [performAIAnalysis] after the [await]: the [try], [catch] and [finally]
    blocks, given how [aiService.analyzePothole] settled. *)
Definition analysisSettled (result : Settled (option AIAnalysis.t)) (v : View)
  : View :=
  match result with
  | Returns analysis =>
      {| state :=
           {| ReportPothole.formData := ReportPothole.formData (state v);
              ReportPothole.imagePreview := ReportPothole.imagePreview (state v);
              ReportPothole.analysisComplete := true;
              ReportPothole.aiAnalysis := analysis |};
         image := image v;
         analyzing := false;
         analysisError := analysisError v |}
  | Throws _ =>
      {| state :=
           {| ReportPothole.formData := ReportPothole.formData (state v);
              ReportPothole.imagePreview := ReportPothole.imagePreview (state v);
              ReportPothole.analysisComplete := false;
              ReportPothole.aiAnalysis := ReportPothole.aiAnalysis (state v) |};
         image := image v;
         analyzing := false;
         analysisError := "Failed to analyze image. Please try again." |}
  end.

(** [handleSubmit] on the whole state: the reset also clears [image]; it
    leaves [analyzing] and [analysisError] as they are. *)
Definition handleSubmit {W} (onSubmit : Draft.t → W → W) (v : View) (w : W)
  : View * W :=
  let '(st, w') := ReportPothole.handleSubmit onSubmit (state v) w in
  ({| state := st; image := None;
      analyzing := analyzing v; analysisError := analysisError v |}, w').

(** What happens to the component, in order. *)
Inductive Event :=
| Chosen (file : option File)
| Loaded (file : File)
| Settles (result : Settled (option AIAnalysis.t)).

Definition on (v : View) (e : Event) : View :=
  match e with
  | Chosen file => handleImageUpload file v
  | Loaded file => readerLoaded file v
  | Settles result => analysisSettled result v
  end.
End Upload.

(** A form state with the given analysis in place of its own. *)
Definition withAnalysis (a : option AIAnalysis.t) (st : ReportPothole.State)
  : ReportPothole.State :=
  {| ReportPothole.formData := ReportPothole.formData st;
     ReportPothole.imagePreview := ReportPothole.imagePreview st;
     ReportPothole.analysisComplete := ReportPothole.analysisComplete st;
     ReportPothole.aiAnalysis := a |}.

(** Whether an action is a submission. *)
Definition isSubmit (a : ViewAction) : bool :=
  match a with
  | Submit _ _ _ => true
  | _ => false
  end.

(** Every priority in the store is between 1 and 10. *)
Definition prioritiesInRange (s : Store) : Prop :=
  Forall (λ r, 1 <= PotholeReport.priority r <= 10) s.

(** The report does not outrank a critical report created at [today]: its
    priority is below 10, or it is 10 and the report is not more recent. *)
Definition outrankedAt (today : Z) (r : Report) : Prop :=
  PotholeReport.priority r < 10
  ∨ (PotholeReport.priority r = 10 ∧ PotholeReport.reportedAt r <= today).

(** A form filled in for a critical pothole. *)
Definition criticalForm : ReportPothole.State :=
  {| ReportPothole.formData :=
       ReportPothole.mkFormData "Harbor Road" "Deep hole" critical "Ann Lee"
         (mkCoordinates (407128 # 10000) (-740060 # 10000));
     ReportPothole.imagePreview := "";
     ReportPothole.analysisComplete := false;
     ReportPothole.aiAnalysis := None |}.

(** What a filter of the authority panel lets through. *)
Definition passes (f : Filter.t) (r : Report) : Prop :=
  match f with
  | Filter.all => True
  | Filter.pending => PotholeReport.status r = pending
  | Filter.in_progress => PotholeReport.status r = in_progress
  | Filter.critical => PotholeReport.severity r = critical
  end.

Global Instance passes_dec f r : Decision (passes f r).
Proof. destruct f; cbn; apply _. Defined.

(** The whole-day resolution times of the resolved reports that have one. *)
Definition resolvedDays (reports : Store) : list Z :=
  omap wholeDays (filter (λ r, PotholeReport.status r = resolved) reports).

(** The ranges of one month of the trend chart. *)
Definition monthInRange (d : MonthData.t) : Prop :=
  5 <= MonthData.reports d <= 24 ∧ 3 <= MonthData.resolved d <= 17.

(** A request that brought data. *)
Definition hasData {D} (reply : Reply D) : Prop :=
  ∃ data, reply = Fulfilled (Some data).

(** The part of an analysis a report keeps. *)
Definition kept (a : AIAnalysis.t) : ReportAnalysis.t :=
  {| ReportAnalysis.confidence := AIAnalysis.confidence a;
     ReportAnalysis.dimensions := AIAnalysis.dimensions a;
     ReportAnalysis.riskLevel := AIAnalysis.riskLevel a |}.

(** A draft with the given analysis in place of its own. *)
Definition draftWithAnalysis (a : option ReportAnalysis.t) (d : Draft.t)
  : Draft.t :=
  {| Draft.location := Draft.location d;
     Draft.coordinates := Draft.coordinates d;
     Draft.severity := Draft.severity d;
     Draft.status := Draft.status d;
     Draft.reportedBy := Draft.reportedBy d;
     Draft.description := Draft.description d;
     Draft.imageUrl := Draft.imageUrl d;
     Draft.aiAnalysis := a;
     Draft.priority := Draft.priority d;
     Draft.assignedTo := Draft.assignedTo d;
     Draft.resolvedAt := Draft.resolvedAt d |}.

Definition refusedReply {D} : Reply D :=
  Failed (AxiosError (Some "ECONNREFUSED") "connect ECONNREFUSED 127.0.0.1:8000").

Definition photo1 : File := mkFile "first.jpg" "data:image/jpeg;base64,AAAA".
Definition photo2 : File := mkFile "second.jpg" "data:image/jpeg;base64,BBBB".

(** * Properties *)

(** ** The report store *)

Global Instance toString_inj : Inj (=) (=) toString.
Proof. unfold toString. apply _. Qed.

Lemma draftOf_newReport now today d : draftOf (newReport now today d) = d.
Proof. by destruct d. Qed.

Lemma addReports_eq calls prev :
  addReports calls prev
  = (created <$> calls, reverse (created <$> calls) ++ prev).
Proof.
  revert prev. induction calls as [|c calls IH]; intros prev; [done|].
  cbn [addReports addReport]. rewrite IH. f_equal.
  rewrite fmap_cons, reverse_cons, <- app_assoc. done.
Qed.

Lemma ids_addReports calls prev :
  ids (snd (addReports calls prev))
  = reverse (toString <$> (create_now <$> calls)) ++ ids prev.
Proof.
  rewrite addReports_eq. unfold ids. cbn [snd].
  rewrite fmap_app, fmap_reverse, <- !list_fmap_compose. done.
Qed.

(** C1, as the code has it: every [addReport] call gives the new record the
    decimal numeral of the clock's millisecond reading as identifier and
    the current time as creation timestamp, keeps the draft's members,
    prepends the record and returns it, so the store is the returned
    records, latest first, followed by the earlier contents.  The
    identifiers in the store are pairwise distinct provided they were so
    before, the calls read pairwise distinct milliseconds, and no reading
    spells an identifier already in the store. *)
Theorem addReports_prepends_fresh (calls : list Create) (prev : Store) :
  let returned := fst (addReports calls prev) in
  let s := snd (addReports calls prev) in
  Forall2 (λ c r,
             PotholeReport.id r = toString (create_now c)
             ∧ PotholeReport.reportedAt r = create_today c
             ∧ draftOf r = create_draft c) calls returned
  ∧ s = reverse returned ++ prev
  ∧ (NoDup (ids prev) →
     NoDup (create_now <$> calls) →
     (∀ c, c ∈ calls → toString (create_now c) ∉ ids prev) →
     NoDup (ids s)).
Proof.
  cbv zeta. split_and!.
  - rewrite addReports_eq. cbn [fst]. apply Forall2_fmap_r, Forall_Forall2_diag.
    apply Forall_forall. intros c _. unfold created.
    split_and!; [done..|apply draftOf_newReport].
  - by rewrite addReports_eq.
  - intros Hprev Hnow Hfresh. rewrite ids_addReports.
    apply NoDup_app. split_and!; [| |done].
    + rewrite reverse_Permutation. apply NoDup_fmap_2; [apply _|done].
    + intros i Hi. rewrite elem_of_reverse in Hi.
      apply list_elem_of_fmap in Hi as (n & -> & Hn).
      apply list_elem_of_fmap in Hn as (c & -> & Hc). by apply Hfresh.
Qed.

Lemma addReports_prepends_fresh_witness :
  NoDup (ids (snd (addReports sampleCalls mockReports))).
Proof.
  apply (addReports_prepends_fresh sampleCalls mockReports).
  - apply (bool_decide_unpack _). vm_compute. exact I.
  - apply (bool_decide_unpack _). vm_compute. exact I.
  - apply Forall_forall. apply (bool_decide_unpack _). vm_compute. exact I.
Defined.

(** C1 as stated fails: two [addReport] calls that read the same
    millisecond give two reports the same identifier. *)
Lemma addReports_same_millisecond_not_unique :
  ¬ NoDup (ids (snd (addReports
                       [ mkCreate 1706000000000 1706000000000 sampleDraft;
                         mkCreate 1706000000000 1706000000000 sampleDraft ]
                       mockReports))).
Proof.
  cbn [addReports addReport snd ids fmap list_fmap newReport PotholeReport.id
       create_now].
  intros H. apply NoDup_cons in H as [H _]. apply H, list_elem_of_here.
Qed.

Lemma given_default {A} (old : A) (upd : option A) :
  given old upd (default old upd).
Proof. by destruct upd. Qed.

Lemma merge_mergedFrom r u : mergedFrom r u (merge r u).
Proof. unfold mergedFrom, merge. cbn. repeat split; apply given_default. Qed.

Lemma updateReport_absent id updates prev :
  id ∉ ids prev → updateReport id updates prev = prev.
Proof.
  unfold updateReport, ids. induction prev as [|r prev IH]; [done|].
  rewrite fmap_cons, not_elem_of_cons. intros [Hne Hnin].
  rewrite fmap_cons, IH by done. by rewrite decide_False.
Qed.

(** C3: an update for an identifier that no report of the store carries
    leaves the store as it is (and [updateReport] is total: there is no
    error to signal); otherwise the store keeps its length and order, a
    report with that identifier has exactly the members present in the
    update replaced, and every other report is unchanged. *)
Theorem updateReport_merges_or_ignores
    (id : string) (updates : Partial.t) (prev : Store) :
  (id ∉ ids prev → updateReport id updates prev = prev)
  ∧ length (updateReport id updates prev) = length prev
  ∧ ∀ i r, prev !! i = Some r →
      ∃ r', updateReport id updates prev !! i = Some r'
            ∧ (PotholeReport.id r = id → mergedFrom r updates r')
            ∧ (PotholeReport.id r ≠ id → r' = r).
Proof.
  split_and!.
  - apply updateReport_absent.
  - unfold updateReport. apply length_fmap.
  - intros i r Hi. unfold updateReport. rewrite list_lookup_fmap, Hi. cbn.
    eexists. split; [done|]. case_decide; split; try done.
    intros _. apply merge_mergedFrom.
Qed.

Lemma updateReport_merges_or_ignores_witness :
  updateReport "9" renaming mockReports = mockReports
  ∧ ∃ r', updateReport "2" (AuthorityPanel.assignUpdates "Lisa Brown") mockReports
            !! 0%nat = Some r'
          ∧ r' = PotholeReport.mk "1" "Main Street & 5th Avenue"
                   (mkCoordinates (407128 # 10000) (-740060 # 10000))
                   high pending date_2024_01_15_1030 "John Doe"
                   "Large pothole causing vehicle damage"
                   (Some pexels_1051838)
                   (Some (ReportAnalysis.mk (92 # 100) (Dimensions.mk 45 8 60)
                                            "High Risk"))
                   8 None None.
Proof.
  split.
  - apply (updateReport_merges_or_ignores "9" renaming mockReports).
    apply (bool_decide_unpack _). vm_compute. exact I.
  - destruct (updateReport_merges_or_ignores "2"
                (AuthorityPanel.assignUpdates "Lisa Brown") mockReports)
      as (_ & _ & H).
    destruct (H 0%nat _ eq_refl) as (r' & Hr' & _ & Hother).
    exists r'. split; [exact Hr'|]. apply Hother. cbn. discriminate.
Defined.

(** C4 as stated fails: the store accepts an update whose fields include
    [id] and [reportedAt], and then rewrites both. *)
Lemma updateReport_rewrites_identity :
  identity <$> run [OpUpdate "1" renaming] mockReports
  ≠ identity <$> mockReports.
Proof. vm_compute. discriminate. Qed.

Lemma identity_merge r u :
  Partial.id u = None → Partial.reportedAt u = None →
  identity (merge r u) = identity r.
Proof. unfold identity, merge. cbn. by intros -> ->. Qed.

Lemma id_merge r u :
  Partial.id u = None → PotholeReport.id (merge r u) = PotholeReport.id r.
Proof. unfold merge. cbn. by intros ->. Qed.

Lemma identity_filter_updateReport (P : Report → Prop) `{!∀ r, Decision (P r)}
    id u (s : Store) :
  Partial.id u = None → Partial.reportedAt u = None →
  (∀ r, P (merge r u) ↔ P r) →
  identity <$> filter P (updateReport id u s) = identity <$> filter P s.
Proof.
  intros Hid Hat HP. unfold updateReport.
  induction s as [|r s IH]; [done|].
  rewrite fmap_cons.
  destruct (decide (PotholeReport.id r = id)) as [Hr|Hr].
  - rewrite !filter_cons.
    destruct (decide (P (merge r u))) as [Hm|Hm], (decide (P r)) as [Hp|Hp].
    + rewrite !fmap_cons, identity_merge, IH by done. done.
    + destruct Hp. by apply HP.
    + destruct Hm. by apply HP.
    + done.
  - rewrite !filter_cons. case_decide; [|done]. by rewrite !fmap_cons, IH.
Qed.

Lemma createdBy_cons op ops p : createdBy ops p → createdBy (op :: ops) p.
Proof.
  intros (now & today & d & Hin & ->). exists now, today, d.
  split; [by apply list_elem_of_further|done].
Qed.

(** The updates the views issue carry neither an [id] nor a [reportedAt]. *)
Lemma views_keepIdentity id today newStatus assignee priority :
  keepsIdentity (OpUpdate id (ReportCard.statusUpdates today newStatus))
  ∧ keepsIdentity (OpUpdate id (AuthorityPanel.assignUpdates assignee))
  ∧ keepsIdentity (OpUpdate id (AuthorityPanel.priorityUpdates priority)).
Proof. by destruct newStatus. Qed.

(** C4, as the code has it: over every sequence of store operations whose
    updates carry neither an [id] nor a [reportedAt] key (as all updates
    issued by the views do), the reports of the store keep their identifier
    and creation timestamp: afterwards the store holds, in their order and
    with these two members as before, the earlier reports whose identifier
    was not deleted, behind the reports created since, each of which still
    has the identifier and timestamp its creation gave it. *)
Theorem run_keeps_identity (ops : list StoreOp) (s : Store) :
  Forall keepsIdentity ops →
  ∃ fresh,
    identity <$> run ops s
    = fresh ++ (identity <$> filter (λ r, PotholeReport.id r ∉ deleted ops) s)
    ∧ Forall (createdBy ops) fresh.
Proof.
  intros Hops. revert s.
  induction Hops as [|op ops Hop Hops IH]; intros s.
  - exists []. split; [|constructor]. cbn [run foldl deleted app]. f_equal.
    induction s as [|r s IHs]; [done|].
    rewrite filter_cons_True by apply not_elem_of_nil. by f_equal.
  - unfold run. cbn [foldl]. fold (run ops (step s op)).
    destruct (IH (step s op)) as (fresh & -> & Hfresh).
    pose proof (Forall_impl _ _ _ Hfresh (createdBy_cons op ops)) as Hfresh'.
    destruct op as [now today d|id u|id]; cbn [step deleted].
    + cbn [addReport snd]. rewrite filter_cons.
      case_decide; [|by exists fresh].
      exists (fresh ++ [identity (newReport now today d)]). split.
      * by rewrite fmap_cons, <- app_assoc.
      * apply Forall_app. split; [done|]. repeat constructor.
        exists now, today, d. split; [apply list_elem_of_here|done].
    + destruct Hop as [Hid Hat]. exists fresh. split; [|done]. f_equal.
      apply identity_filter_updateReport; [done..|].
      intros r. by rewrite id_merge.
    + exists fresh. split; [|done]. do 2 f_equal. unfold deleteReport.
      rewrite list_filter_filter. apply list_filter_iff.
      intros r. rewrite not_elem_of_cons. tauto.
Qed.

Lemma run_keeps_identity_witness :
  ∃ fresh,
    identity <$> run [ OpUpdate "1" (ReportCard.statusUpdates 1706000000000 resolved);
                       OpAdd 1706000000001 1706000000001 sampleDraft;
                       OpDelete "2" ] mockReports
    = fresh ++ [ ("1", date_2024_01_15_1030); ("3", date_2024_01_12_0915) ].
Proof.
  destruct (run_keeps_identity
              [ OpUpdate "1" (ReportCard.statusUpdates 1706000000000 resolved);
                OpAdd 1706000000001 1706000000001 sampleDraft;
                OpDelete "2" ] mockReports) as (fresh & H & _).
  - repeat constructor.
  - exists fresh. exact H.
Defined.

(** ** Analytics *)

Lemma Math_floor_div (x : Z) :
  Math_floor (inject_Z x / inject_Z Analytics.msPerDay)
  = x `div` Analytics.msPerDay.
Proof.
  unfold Math_floor, Qdiv, Qmult, inject_Z. cbn. by rewrite Z.mul_1_r.
Qed.

Lemma days_wholeDays r : Analytics.days r = wholeDays r.
Proof.
  unfold Analytics.days, wholeDays.
  destruct (PotholeReport.resolvedAt r) as [t|]; [|done].
  cbn [mbind option_bind fmap option_fmap option_map].
  by rewrite Math_floor_div.
Qed.

Lemma filter_resolved_stamped (reports : Store) :
  resolvedStamped reports →
  filter (λ r, PotholeReport.status r = resolved
               ∧ is_Some (PotholeReport.resolvedAt r)) reports
  = filter (λ r, PotholeReport.status r = resolved) reports.
Proof.
  induction 1 as [|r reports Hr _ IH]; [done|].
  rewrite !filter_cons, IH.
  destruct (decide (PotholeReport.status r = resolved)) as [Hs|Hs].
  - rewrite decide_True; [done|]. split; [done|]. by apply Hr.
  - rewrite decide_False; [done|]. by intros [? _].
Qed.

Lemma resolvedStamped_filter (reports : Store) :
  resolvedStamped reports →
  Forall (λ r, is_Some (PotholeReport.resolvedAt r))
         (filter (λ r, PotholeReport.status r = resolved) reports).
Proof.
  induction 1 as [|r reports Hr _ IH]; [constructor|].
  rewrite filter_cons. case_decide; [|done]. constructor; [by apply Hr|done].
Qed.

Lemma reduce_days (l : Store) (acc : Z) :
  Forall (λ r, is_Some (PotholeReport.resolvedAt r)) l →
  foldl (λ sum r, sum ← sum; d ← Analytics.days r; Some (sum + d)) (Some acc) l
  = Some (acc + foldr Z.add 0 (omap wholeDays l))
  ∧ length (omap wholeDays l) = length l.
Proof.
  intros Hl. revert acc. induction Hl as [|r l [t Ht] _ IH]; intros acc.
  - cbn. split; [f_equal; lia|done].
  - assert (∃ d, Analytics.days r = Some d) as [d Hd].
    { unfold Analytics.days. rewrite Ht. eauto. }
    cbn [foldl omap list_omap]. rewrite <- days_wholeDays, Hd.
    cbn [mbind option_bind foldr length].
    destruct (IH (acc + d)) as [-> ->]. split; [f_equal; lia|done].
Qed.

(** C5, as the code has it: when no report is resolved the average
    resolution time is 0; and over every list in which each resolved
    report carries a resolution timestamp it is the mean, over the
    resolved reports, of resolution timestamp minus creation timestamp in
    whole days (each difference floored to days, then averaged). *)
Theorem avgResolutionTime_mean (reports : Store) :
  (filter (λ r, PotholeReport.status r = resolved) reports = [] →
   Analytics.avgResolutionTime reports = Some 0%Q)
  ∧ (resolvedStamped reports →
     Analytics.avgResolutionTime reports = Some (meanResolutionDays reports)).
Proof.
  split.
  - intros HR. unfold Analytics.avgResolutionTime. rewrite HR. done.
  - intros H. unfold Analytics.avgResolutionTime, meanResolutionDays.
    rewrite filter_resolved_stamped by done.
    destruct (reduce_days _ 0 (resolvedStamped_filter _ H)) as [Hsum Hlen].
    rewrite Hsum. cbn [mbind option_bind]. rewrite Z.add_0_l.
    destruct (filter (λ r, PotholeReport.status r = resolved) reports)
      as [|r R] eqn:HR; [done|].
    rewrite decide_True by (cbn; lia).
    rewrite Hlen. revert Hlen.
    by destruct (omap wholeDays (r :: R)).
Qed.

Lemma avgResolutionTime_mean_witness :
  Analytics.avgResolutionTime mockReports = Some (meanResolutionDays mockReports)
  ∧ Analytics.avgResolutionTime (take 2 mockReports) = Some 0%Q.
Proof.
  split.
  - apply (proj2 (avgResolutionTime_mean mockReports)).
    apply (bool_decide_unpack _). vm_compute. exact I.
  - apply (proj1 (avgResolutionTime_mean (take 2 mockReports))). reflexivity.
Defined.

(** C5 as stated fails: a resolved report without a resolution timestamp is
    left out of the sum but counted in the divisor.  After the first seed
    report is marked resolved by a bare status update, the only resolved
    report with a resolution time took 1 whole day, yet the average shown
    is 1/2. *)
Lemma avgResolutionTime_counts_unstamped :
  let reports := run [OpUpdate "1" resolveUnstamped] mockReports in
  omap wholeDays (filter (λ r, PotholeReport.status r = resolved) reports) = [1]
  ∧ (meanResolutionDays reports == 1)%Q
  ∧ ¬ ∃ q, Analytics.avgResolutionTime reports = Some q
           ∧ (q == meanResolutionDays reports)%Q.
Proof.
  cbv zeta. split_and!.
  - vm_compute. reflexivity.
  - vm_compute. reflexivity.
  - intros (q & Hq & Heq). vm_compute in Hq. injection Hq as <-.
    vm_compute in Heq. discriminate.
Qed.

(** ** The views' handlers *)

(** C6: the status change handler of a report card issues one store
    update.  For the new status resolved the update carries the status and
    a resolution timestamp, the current time, and every report with the
    card's identifier gets both; for any other status it carries the status
    alone, and the report's resolution timestamp stays as it was, neither
    set nor cleared.  Reports with another identifier are unchanged. *)
Theorem handleStatusChange_sets_resolvedAt
    (s : Store) (report : Report) (today : Z) (newStatus : Status) :
  let updates := ReportCard.statusUpdates today newStatus in
  (∀ onUpdate,
     ReportCard.handleStatusChange onUpdate report today newStatus
     = onUpdate (PotholeReport.id report) updates)
  ∧ keys updates
    = (if decide (newStatus = resolved) then ["status"; "resolvedAt"]
       else ["status"])
  ∧ ReportCard.handleStatusChange updateReport report today newStatus s
    = (λ r,
         if decide (PotholeReport.id r = PotholeReport.id report)
         then withStatus newStatus
                (if decide (newStatus = resolved) then Some today
                 else PotholeReport.resolvedAt r) r
         else r) <$> s.
Proof.
  cbv zeta. split_and!.
  - done.
  - by destruct newStatus.
  - unfold ReportCard.handleStatusChange, updateReport.
    apply list_fmap_ext. intros _ r _. case_decide; [|done].
    by destruct newStatus, r.
Qed.

(** C10: the assign action of the authority view issues one store update
    whose only keys are [status] and [assignedTo]; every report with the
    given identifier gets the chosen assignee (the empty string included)
    and the status in-progress, whatever its status was, and keeps its
    other members; reports with another identifier are unchanged. *)
Theorem handleAssign_sets_in_progress
    (s : Store) (reportId assignee : string) :
  let updates := AuthorityPanel.assignUpdates assignee in
  (∀ onUpdateReport,
     AuthorityPanel.handleAssign onUpdateReport reportId assignee
     = onUpdateReport reportId updates)
  ∧ keys updates = ["status"; "assignedTo"]
  ∧ AuthorityPanel.handleAssign updateReport reportId assignee s
    = (λ r,
         if decide (PotholeReport.id r = reportId)
         then withAssignment (Some assignee) in_progress r
         else r) <$> s.
Proof.
  cbv zeta. split_and!; [done..|].
  unfold AuthorityPanel.handleAssign, updateReport.
  apply list_fmap_ext. intros _ r _. case_decide; [|done]. by destruct r.
Qed.

(** C8: a submission through the report form creates a report whose
    priority is the default of its severity (critical 10, high 8,
    medium 5, low 3) and whose status is pending; the report is the new
    head of the store and carries the severity chosen in the form. *)
Theorem handleSubmit_default_priority
    (st : ReportPothole.State) (now today : Z) (app : App.State) :
  ∃ r,
    App.reports
      (snd (ReportPothole.handleSubmit (App.handleReportSubmit now today) st app))
    = r :: App.reports app
    ∧ PotholeReport.severity r
      = ReportPothole.severity (ReportPothole.formData st)
    ∧ PotholeReport.priority r
      = match PotholeReport.severity r with
        | critical => 10
        | high => 8
        | medium => 5
        | low => 3
        end
    ∧ PotholeReport.status r = pending.
Proof.
  eexists. split; [reflexivity|]. cbn.
  by destruct (ReportPothole.severity (ReportPothole.formData st)).
Qed.

(** ** Dashboard *)

Section sort.
Context {A : Type} (comparefn : A → A → Z).

Lemma sort_insert_Permutation x l : sort_insert comparefn x l ≡ₚ x :: l.
Proof.
  induction l as [|y l IH]; [done|]. cbn.
  destruct (comparefn x y <=? 0); [done|].
  by rewrite IH, Permutation_swap.
Qed.

Lemma Array_sort_Permutation l : Array_sort comparefn l ≡ₚ l.
Proof.
  induction l as [|x l IH]; [done|].
  unfold Array_sort in *. cbn. by rewrite sort_insert_Permutation, IH.
Qed.

Lemma sort_insert_nil x : sort_insert comparefn x [] = [x].
Proof. done. Qed.

Lemma sort_insert_le x y l :
  comparefn x y <= 0 → sort_insert comparefn x (y :: l) = x :: y :: l.
Proof. intros H. cbn. by destruct (Z.leb_spec (comparefn x y) 0); [|lia]. Qed.

Lemma sort_insert_gt x y l :
  0 < comparefn x y →
  sort_insert comparefn x (y :: l) = y :: sort_insert comparefn x l.
Proof. intros H. cbn. by destruct (Z.leb_spec (comparefn x y) 0); [lia|]. Qed.

Context (R : A → A → Prop) `{!Transitive R}.
Hypothesis comparefn_le : ∀ x y, comparefn x y <= 0 → R x y.
Hypothesis comparefn_gt : ∀ x y, 0 < comparefn x y → R y x.

Lemma sort_insert_sorted x l :
  StronglySorted R l → StronglySorted R (sort_insert comparefn x l).
Proof.
  induction 1 as [|y l Hl IH Hy]; cbn.
  - repeat constructor.
  - destruct (Z.leb_spec (comparefn x y) 0) as [Hle|Hgt].
    + constructor; [by constructor|].
      constructor; [by apply comparefn_le|].
      eapply Forall_impl; [exact Hy|].
      intros z Hz. by transitivity y; [apply comparefn_le|].
    + constructor; [done|].
      rewrite sort_insert_Permutation. constructor; [|done].
      by apply comparefn_gt.
Qed.

Lemma Array_sort_sorted l : StronglySorted R (Array_sort comparefn l).
Proof.
  induction l as [|x l IH]; [constructor|].
  by apply sort_insert_sorted.
Qed.
End sort.

Global Instance before_trans : Transitive before.
Proof. unfold before. intros a b c ? ?. lia. Qed.

Lemma comparefn_le a b : Dashboard.comparefn a b <= 0 → before a b.
Proof. unfold Dashboard.comparefn, before. case_decide; lia. Qed.

Lemma comparefn_gt a b : 0 < Dashboard.comparefn a b → before b a.
Proof. unfold Dashboard.comparefn, before. case_decide; lia. Qed.

Lemma comparefn_ranked p t r p' t' r' :
  Dashboard.comparefn (ranked p t r) (ranked p' t' r')
  = if decide (p ≠ p') then p' - p else t' - t.
Proof. done. Qed.

Ltac compare_ranked := rewrite comparefn_ranked; case_decide; lia.

(** C9: the dashboard's list holds the same reports as the store, ordered by
    priority descending, reports of equal priority by creation timestamp
    descending.  In particular four reports with priorities 3, 8, 8, 5, the
    two of priority 8 created at different times, come out as the later of
    the two 8s, the earlier one, the 5 and the 3. *)
Theorem sortedReports_priority_then_recent
    (reports : Store) (r1 r2 r3 r4 : Report) (t1 t2 t3 t4 : Z) :
  Dashboard.sortedReports reports ≡ₚ reports
  ∧ StronglySorted before (Dashboard.sortedReports reports)
  ∧ (t2 ≠ t3 →
     Dashboard.sortedReports
       [ranked 3 t1 r1; ranked 8 t2 r2; ranked 8 t3 r3; ranked 5 t4 r4]
     = if decide (t3 < t2)
       then [ranked 8 t2 r2; ranked 8 t3 r3; ranked 5 t4 r4; ranked 3 t1 r1]
       else [ranked 8 t3 r3; ranked 8 t2 r2; ranked 5 t4 r4; ranked 3 t1 r1]).
Proof.
  split_and!.
  - apply Array_sort_Permutation.
  - apply Array_sort_sorted; [apply _|apply comparefn_le|apply comparefn_gt].
  - intros Hne. unfold Dashboard.sortedReports, Array_sort.
    cbn [foldr]. rewrite sort_insert_nil.
    rewrite sort_insert_le by compare_ranked.
    case_decide.
    + rewrite sort_insert_le by compare_ranked.
      by rewrite !sort_insert_gt, sort_insert_nil by compare_ranked.
    + rewrite sort_insert_gt by compare_ranked.
      rewrite (sort_insert_le _ (ranked 8 t2 r2)) by compare_ranked.
      by rewrite !sort_insert_gt, sort_insert_nil by compare_ranked.
Qed.

Lemma sortedReports_priority_then_recent_witness :
  PotholeReport.id <$> Dashboard.sortedReports
    [ ranked 3 40 (created (mkCreate 1 40 sampleDraft));
      ranked 8 10 (created (mkCreate 2 10 sampleDraft));
      ranked 8 30 (created (mkCreate 3 30 sampleDraft));
      ranked 5 20 (created (mkCreate 4 20 sampleDraft)) ]
  = ["3"; "2"; "4"; "1"].
Proof.
  rewrite (proj2 (proj2 (sortedReports_priority_then_recent [] _ _ _ _ _ _ _ _)))
    by lia.
  reflexivity.
Defined.

(** ** Binary64 rounding *)

Section binary64.
Local Open Scope Q_scope.

Lemma pow2_pos e : 0 < pow2 e.
Proof. apply Qpower_0_lt. reflexivity. Qed.

Lemma pow2_add a b : pow2 (a + b) == pow2 a * pow2 b.
Proof. apply Qpower_plus. discriminate. Qed.

Lemma pow2_le a b : (a <= b)%Z → pow2 a <= pow2 b.
Proof. intros H. apply Qpower_le_compat_l; [exact H|discriminate]. Qed.

Lemma pow2_Z a : (0 <= a)%Z → pow2 a == inject_Z (2 ^ a).
Proof. intros H. unfold pow2. by rewrite Zpower_Qpower. Qed.

Lemma pow2_cancel a : pow2 (- a) * pow2 a == 1.
Proof. rewrite <- pow2_add. by replace (- a + a)%Z with 0%Z by lia. Qed.

(** [mag x] is the binary order of magnitude of a positive [x]. *)
Lemma mag_spec x : 0 < x → pow2 (mag x - 1) <= x ∧ x < pow2 (mag x).
Proof.
  intros Hx. destruct x as [n d]. unfold mag. cbn [Qnum Qden].
  assert (0 < n)%Z as Hn by (unfold Qlt in Hx; cbn in Hx; lia).
  set (a := Z.log2 n). set (b := Z.log2 (Z.pos d)).
  destruct (Z.log2_spec n Hn) as [Ha1 Ha2]. fold a in Ha1, Ha2.
  destruct (Z.log2_spec (Z.pos d) eq_refl) as [Hb1 Hb2]. fold b in Hb1, Hb2.
  assert (0 <= a)%Z as Ha0 by apply Z.log2_nonneg.
  assert (0 <= b)%Z as Hb0 by apply Z.log2_nonneg.
  assert (pow2 a <= inject_Z n) as Qa1.
  { rewrite pow2_Z by done. by rewrite <- Zle_Qle. }
  assert (inject_Z n < pow2 (a + 1)) as Qa2.
  { rewrite pow2_Z by lia. rewrite <- Zlt_Qlt. by rewrite <- Z.add_1_r in Ha2. }
  assert (pow2 b <= inject_Z (Z.pos d)) as Qb1.
  { rewrite pow2_Z by done. by rewrite <- Zle_Qle. }
  assert (inject_Z (Z.pos d) < pow2 (b + 1)) as Qb2.
  { rewrite pow2_Z by lia. rewrite <- Zlt_Qlt. by rewrite <- Z.add_1_r in Hb2. }
  assert ((n # d) * inject_Z (Z.pos d) == inject_Z n) as Hnd.
  { unfold Qeq, Qmult, inject_Z. cbn. lia. }
  assert (pow2 (a - b - 1) * pow2 (b + 1) == pow2 a) as E1.
  { rewrite <- pow2_add. by replace (a - b - 1 + (b + 1))%Z with a by lia. }
  assert (pow2 (a - b + 1) * pow2 b == pow2 (a + 1)) as E2.
  { rewrite <- pow2_add. by replace (a - b + 1 + b)%Z with (a + 1)%Z by lia. }
  assert (pow2 (a - b - 1) < n # d) as Hlo.
  { apply Qnot_le_lt. intros Hle.
    assert ((n # d) * inject_Z (Z.pos d) < pow2 (a - b - 1) * pow2 (b + 1)) as H.
    { apply Qlt_le_trans with ((n # d) * pow2 (b + 1)).
      - by apply Qmult_lt_l.
      - apply Qmult_le_r; [apply pow2_pos|done]. }
    rewrite Hnd, E1 in H. by apply Qlt_not_le in H. }
  assert (n # d < pow2 (a - b + 1)) as Hhi.
  { apply Qnot_le_lt. intros Hle.
    assert (pow2 (a - b + 1) * pow2 b <= (n # d) * inject_Z (Z.pos d)) as H.
    { apply Qle_trans with ((n # d) * pow2 b).
      - apply Qmult_le_r; [apply pow2_pos|done].
      - by apply Qmult_le_l. }
    rewrite Hnd, E2 in H. by apply Qle_not_lt in H. }
  destruct (Qle_bool (pow2 (a - b)) (n # d)) eqn:Ht.
  - apply Qle_bool_iff in Ht. replace (a - b + 1 - 1)%Z with (a - b)%Z by lia.
    by split.
  - split; [by apply Qlt_le_weak|].
    apply Qnot_le_lt. intros Hle. apply Qle_bool_iff in Hle. congruence.
Qed.

Lemma mag_mono x y : 0 < x → x <= y → (mag x <= mag y)%Z.
Proof.
  intros Hx Hxy.
  assert (0 < y) as Hy by (by eapply Qlt_le_trans).
  destruct (mag_spec x Hx) as [Hx1 _]. destruct (mag_spec y Hy) as [_ Hy2].
  destruct (Z.le_gt_cases (mag x) (mag y)) as [|Hgt]; [done|].
  exfalso. assert (pow2 (mag y) <= pow2 (mag x - 1)) as H by (apply pow2_le; lia).
  apply (Qlt_irrefl y).
  eapply Qlt_le_trans; [exact Hy2|].
  eapply Qle_trans; [exact H|]. by eapply Qle_trans.
Qed.

Lemma rne_bounds x : (Qfloor x <= rne x <= Qfloor x + 1)%Z.
Proof.
  unfold rne. destruct (Qcompare _ _); [destruct (Z.even _)|..]; lia.
Qed.

Lemma rne_mono x y : x <= y → (rne x <= rne y)%Z.
Proof.
  intros Hxy. pose proof (Qfloor_resp_le x y Hxy) as Hf.
  pose proof (rne_bounds x). pose proof (rne_bounds y).
  destruct (Z.eq_dec (Qfloor x) (Qfloor y)) as [Heq|Hne]; [|lia].
  unfold rne. rewrite <- Heq.
  destruct (Qcompare_spec (x - inject_Z (Qfloor x)) (1 # 2)) as [E|L|G];
    destruct (Qcompare_spec (y - inject_Z (Qfloor x)) (1 # 2)) as [E'|L'|G'];
    try destruct (Z.even (Qfloor x)); try lia; exfalso; lra.
Qed.

Lemma rne_Z z : rne (inject_Z z) = z.
Proof.
  unfold rne. rewrite Qfloor_Z.
  destruct (Qcompare_spec (inject_Z z - inject_Z z) (1 # 2)) as [E|L|G];
    [exfalso; lra|done|exfalso; lra].
Qed.

Lemma rne_ge z x : inject_Z z <= x → (z <= rne x)%Z.
Proof. intros H. rewrite <- (rne_Z z). by apply rne_mono. Qed.

Lemma rne_le z x : x <= inject_Z z → (rne x <= z)%Z.
Proof. intros H. rewrite <- (rne_Z z). by apply rne_mono. Qed.

Lemma round64_pos_nonneg x : 0 < x → 0 <= round64_pos x.
Proof.
  intros Hx. unfold round64_pos. apply Qmult_le_0_compat.
  - change 0 with (inject_Z 0). rewrite <- Zle_Qle. apply rne_ge.
    apply Qmult_le_0_compat; [by apply Qlt_le_weak|].
    apply Qlt_le_weak, pow2_pos.
  - apply Qlt_le_weak, pow2_pos.
Qed.

(** Within one binade rounding is the rounding of the scaled value; across
    binades the power of two between them separates the results. *)
Lemma round64_pos_mono x y : 0 < x → x <= y → round64_pos x <= round64_pos y.
Proof.
  intros Hx Hxy.
  assert (0 < y) as Hy by (by eapply Qlt_le_trans).
  pose proof (mag_mono x y Hx Hxy) as Hmag.
  destruct (mag_spec x Hx) as [_ Hx2]. destruct (mag_spec y Hy) as [Hy1 _].
  unfold round64_pos.
  destruct (Z.eq_dec (cexp x) (cexp y)) as [Heq|Hne].
  - rewrite Heq. apply Qmult_le_r; [apply pow2_pos|].
    rewrite <- Zle_Qle. apply rne_mono.
    apply Qmult_le_r; [apply pow2_pos|done].
  - assert (cexp x < cexp y)%Z as Hlt by (unfold cexp in *; lia).
    assert (cexp y = mag y - 53)%Z as Hcy by (unfold cexp in *; lia).
    assert (mag x - 53 <= cexp x)%Z as Hcx by (unfold cexp; lia).
    set (E := (mag y - 1 - cexp x)%Z).
    assert (0 <= E)%Z as HE by (unfold E; lia).
    apply Qle_trans with (pow2 (mag y - 1)).
    + assert (pow2 (mag y - 1) == inject_Z (2 ^ E) * pow2 (cexp x)) as ->.
      { rewrite <- pow2_Z, <- pow2_add by done. unfold E.
        by replace (mag y - 1 - cexp x + cexp x)%Z with (mag y - 1)%Z by lia. }
      apply Qmult_le_r; [apply pow2_pos|].
      rewrite <- Zle_Qle. apply rne_le.
      rewrite <- pow2_Z by done. unfold E.
      replace (mag y - 1 - cexp x)%Z with (mag y - 1 + - cexp x)%Z by lia.
      rewrite pow2_add. apply Qmult_le_r; [apply pow2_pos|].
      apply Qlt_le_weak. eapply Qlt_le_trans; [exact Hx2|].
      apply pow2_le. lia.
    + assert (pow2 (mag y - 1) == inject_Z (2 ^ 52) * pow2 (cexp y)) as ->.
      { rewrite <- pow2_Z, <- pow2_add by done. rewrite Hcy.
        by replace (52 + (mag y - 53))%Z with (mag y - 1)%Z by lia. }
      apply Qmult_le_r; [apply pow2_pos|].
      rewrite <- Zle_Qle. apply rne_ge.
      rewrite <- pow2_Z by done.
      replace 52%Z with (mag y - 1 + - cexp y)%Z by lia.
      rewrite pow2_add. by apply Qmult_le_r; [apply pow2_pos|].
Qed.

Lemma round64_nonneg x : 0 <= x → 0 <= round64 x.
Proof.
  intros Hx. unfold round64.
  destruct (Qcompare_spec x 0) as [E|L|G].
  - apply Qle_refl.
  - exfalso. by apply Qle_not_lt in Hx.
  - by apply round64_pos_nonneg.
Qed.

(** Rounding is monotone (on the non-negative numbers, all that occur). *)
Lemma round64_mono x y : 0 <= x → x <= y → round64 x <= round64 y.
Proof.
  intros Hx Hxy. unfold round64 at 1.
  destruct (Qcompare_spec x 0) as [E|L|G].
  - apply round64_nonneg. by eapply Qle_trans.
  - exfalso. by apply Qle_not_lt in Hx.
  - unfold round64. destruct (Qcompare_spec y 0) as [E'|L'|G'].
    + exfalso. rewrite E' in Hxy. by apply Qle_not_lt in Hxy.
    + exfalso. apply (Qlt_irrefl 0). eapply Qlt_le_trans; [exact G|].
      eapply Qle_trans; [exact Hxy|]. by apply Qlt_le_weak.
    + by apply round64_pos_mono.
Qed.

Lemma round64_Qeq x y : 0 <= x → x == y → round64 x == round64 y.
Proof.
  intros Hx Hxy. apply Qle_antisym; apply round64_mono; try done.
  - rewrite Hxy. apply Qle_refl.
  - by rewrite <- Hxy.
  - rewrite Hxy. apply Qle_refl.
Qed.

(** Bounds on a rounded value from the rounded ends of an interval, which
    are closed terms and are compared by computation. *)
Lemma round64_between a b lo hi x :
  0 <= a → a <= x → x <= b →
  Qle_bool lo (round64 a) = true → Qle_bool (round64 b) hi = true →
  lo <= round64 x <= hi.
Proof.
  intros Ha Hax Hxb Hlo Hhi. apply Qle_bool_iff in Hlo, Hhi. split.
  - eapply Qle_trans; [exact Hlo|]. by apply round64_mono.
  - eapply Qle_trans; [|exact Hhi]. apply round64_mono; [|done].
    by eapply Qle_trans.
Qed.

Lemma round64_below b hi x :
  0 <= x → x <= b → (round64 b ?= hi) = Lt → round64 x < hi.
Proof.
  intros Hx Hxb Hhi. apply Qlt_alt in Hhi.
  eapply Qle_lt_trans; [|exact Hhi]. by apply round64_mono.
Qed.

(** The integers below [2^53] are binary64 numbers. *)
Lemma round64_Z z : (0 <= z < 2 ^ 53)%Z → round64 (inject_Z z) == inject_Z z.
Proof.
  intros [Hz0 Hz]. unfold round64.
  destruct (Qcompare_spec (inject_Z z) 0) as [E|L|G].
  - by rewrite E.
  - exfalso. change 0 with (inject_Z 0) in L. rewrite <- Zlt_Qlt in L. lia.
  - destruct (mag_spec _ G) as [H1 H2].
    assert (mag (inject_Z z) <= 53)%Z as Hm.
    { destruct (Z.le_gt_cases (mag (inject_Z z)) 53) as [|Hgt]; [done|].
      exfalso. apply (Qlt_irrefl (inject_Z z)).
      eapply Qlt_le_trans; [|exact H1].
      eapply Qlt_le_trans with (pow2 53).
      - rewrite pow2_Z by done. by rewrite <- Zlt_Qlt.
      - apply pow2_le. lia. }
    unfold round64_pos.
    set (c := cexp (inject_Z z)).
    assert (0 <= - c)%Z as Hc by (unfold c, cexp; lia).
    assert (inject_Z z * pow2 (- c) == inject_Z (z * 2 ^ (- c))) as Hs.
    { rewrite pow2_Z by done. by rewrite inject_Z_mult. }
    assert (rne (inject_Z z * pow2 (- c)) = (z * 2 ^ (- c))%Z) as ->.
    { apply Z.le_antisymm; [apply rne_le|apply rne_ge]; rewrite Hs;
        apply Qle_refl. }
    rewrite inject_Z_mult, <- pow2_Z by done.
    rewrite <- Qmult_assoc, pow2_cancel. apply Qmult_1_r.
Qed.

(** A draw is at least 0 and at most the largest number below 1. *)
Lemma draw_range r : draw r → 0 <= r <= largestDraw.
Proof.
  intros (m & e & Hr & [Hm0 Hm] & [He0 He]). rewrite Hr. split.
  - apply Qmult_le_0_compat; [|apply Qlt_le_weak, pow2_pos].
    change 0 with (inject_Z 0). by rewrite <- Zle_Qle.
  - apply Qle_trans with (inject_Z (2 ^ 53 - 1) * pow2 e).
    + apply Qmult_le_r; [apply pow2_pos|]. rewrite <- Zle_Qle. lia.
    + apply Qle_trans with (inject_Z (2 ^ 53 - 1) * pow2 (-53)).
      * apply Qmult_le_l; [reflexivity|]. by apply pow2_le.
      * unfold largestDraw. vm_compute. discriminate.
Qed.

Lemma draw_times r c :
  draw r → 0 <= c →
  0 <= r * c ∧ 0 <= round64 (r * c) <= round64 (largestDraw * c).
Proof.
  intros [Hr0 Hr]%draw_range Hc.
  assert (0 <= r * c) as H0 by (by apply Qmult_le_0_compat).
  split; [done|]. split.
  - by apply round64_nonneg.
  - apply round64_mono; [done|]. by apply Qmult_le_compat_r.
Qed.

Lemma draw_half : draw (1 # 2).
Proof. exists (2 ^ 52)%Z, (-53)%Z. split; [|lia]. vm_compute. reflexivity. Qed.
End binary64.

(** The rounding at work: the width of the mock for a draw whose product
    rounds up to a half, a monthly count for a draw whose product rounds up
    to an integer, and the percentage of 23 in 40, whose product rounds
    down below a half. *)
Lemma round64_examples :
  Math_round (round64 (20 + round64 ((945755921747804 # 4503599627370496) * 50)))
  = 31
  ∧ Math_floor (round64 ((2026619832316723 # 4503599627370496) * 20)) + 5 = 14
  ∧ Math_round (round64 (round64 (23 / 40) * 100)) = 57
  ∧ (round64 (2 # 10) == 3602879701896397 # 18014398509481984)%Q.
Proof. vm_compute. by repeat split. Qed.

(** The same in the program: the mock generator, on a source whose third
    draw is that one and whose other draws are one half, measures a width
    of 31 and an area of 31 × 55; and a store with 23 of its 40 reports
    resolved shows a resolution rate of 57 percent. *)
Lemma rounding_in_the_program :
  let random : nat → Q :=
    λ k, if decide (k = 2%nat) then 945755921747804 # 4503599627370496
         else 1 # 2 in
  AIAnalysis.dimensions <$> fst (AIService.getMockAnalysis random 0)
  = Some {| Dimensions.width := 31%Q; Dimensions.length := 55%Q;
            Dimensions.depth := 11%Q |}
  ∧ (∃ a, fst (AIService.getMockAnalysis random 0) = Some a
          ∧ (AIAnalysis.area a == 1705)%Q)
  ∧ AnalyticsView.resolutionRate
      (mjoin (replicate 23 (drop 2 mockReports))
       ++ mjoin (replicate 17 (take 1 mockReports))) = 57.
Proof.
  split_and!.
  - by vm_compute.
  - eexists. split; [by vm_compute|]. by vm_compute.
  - by vm_compute.
Qed.

(** ** The AI client *)

Lemma Qfloor_between (x : Q) (a b : Z) :
  (inject_Z a <= x)%Q → (x < inject_Z (b + 1))%Q → a <= Qfloor x <= b.
Proof.
  intros Ha Hb. split.
  - rewrite <- (Qfloor_Z a). by apply Qfloor_resp_le.
  - cut (Qfloor x < b + 1); [lia|]. rewrite Zlt_Qlt.
    eapply Qle_lt_trans; [apply Qfloor_le|done].
Qed.

Lemma Math_round_between (lo hi : Z) (x : Q) :
  (inject_Z lo <= x)%Q → (x <= inject_Z hi)%Q → lo <= Math_round x <= hi.
Proof.
  intros Hlo Hhi. unfold Math_round. apply Qfloor_between.
  - lra.
  - rewrite inject_Z_plus. change (inject_Z 1) with 1%Q. lra.
Qed.

(** [Math.round(lo + Math.random() * span)] is an integer from [lo] to
    [hi], when the rounded sum at the largest draw is at most [hi]. *)
Lemma rounded_draw_between (lo span hi : Z) (r : Q) :
  draw r → 0 <= lo → 0 <= span →
  Qle_bool (inject_Z lo) (round64 (inject_Z lo + 0)) = true →
  Qle_bool (round64 (inject_Z lo + round64 (largestDraw * inject_Z span)))
           (inject_Z hi) = true →
  lo <= Math_round (round64 (inject_Z lo + round64 (r * inject_Z span))) <= hi.
Proof.
  intros Hr Hlo Hspan Ha Hb.
  assert (0 <= inject_Z lo)%Q as HloQ
    by (change 0%Q with (inject_Z 0); by rewrite <- Zle_Qle).
  assert (0 <= inject_Z span)%Q as HspanQ
    by (change 0%Q with (inject_Z 0); by rewrite <- Zle_Qle).
  destruct (draw_times r (inject_Z span) Hr HspanQ) as (_ & H0 & H1).
  destruct (round64_between (inject_Z lo + 0)
              (inject_Z lo + round64 (largestDraw * inject_Z span))
              (inject_Z lo) (inject_Z hi)
              (inject_Z lo + round64 (r * inject_Z span)))
    as [? ?]; [lra|lra|lra|done|done|].
  by apply Math_round_between.
Qed.

(** [Math.floor(lo + Math.random() * span)] likewise, when the rounded sum
    at the largest draw is below [hi + 1]. *)
Lemma floored_draw_between (lo span hi : Z) (r : Q) :
  draw r → 0 <= lo → 0 <= span →
  Qle_bool (inject_Z lo) (round64 (inject_Z lo + 0)) = true →
  (round64 (inject_Z lo + round64 (largestDraw * inject_Z span))
   ?= inject_Z (hi + 1))%Q = Lt →
  lo <= Math_floor (round64 (inject_Z lo + round64 (r * inject_Z span))) <= hi.
Proof.
  intros Hr Hlo Hspan Ha Hb.
  assert (0 <= inject_Z lo)%Q as HloQ
    by (change 0%Q with (inject_Z 0); by rewrite <- Zle_Qle).
  assert (0 <= inject_Z span)%Q as HspanQ
    by (change 0%Q with (inject_Z 0); by rewrite <- Zle_Qle).
  destruct (draw_times r (inject_Z span) Hr HspanQ) as (_ & H0 & H1).
  apply Qfloor_between.
  - apply Qle_bool_iff in Ha. eapply Qle_trans; [exact Ha|].
    apply round64_mono; lra.
  - eapply round64_below; [| |exact Hb]; lra.
Qed.

(** [Math.floor(Math.random() * span)] is an integer from 0 to
    [span - 1], when the rounded product at the largest draw is below
    [span]. *)
Lemma floored_scaled_draw (span : Z) (r : Q) :
  draw r → 0 <= span →
  (round64 (largestDraw * inject_Z span) ?= inject_Z span)%Q = Lt →
  0 <= Math_floor (round64 (r * inject_Z span)) <= span - 1.
Proof.
  intros Hr Hspan Hb.
  assert (0 <= inject_Z span)%Q as HspanQ
    by (change 0%Q with (inject_Z 0); by rewrite <- Zle_Qle).
  destruct (draw_times r (inject_Z span) Hr HspanQ) as (Hx & H0 & H1).
  apply Qfloor_between.
  - done.
  - replace (span - 1 + 1) with span by lia.
    apply Qlt_alt in Hb. by eapply Qle_lt_trans.
Qed.

(** [literal lo + Math.random() * literal span], rounded, lies between
    [lo'] and [hi'] when it does at the smallest and at the largest draw. *)
Lemma literal_draw_between (lo span lo' hi' r : Q) :
  draw r →
  Qle_bool 0 (literal lo) = true → Qle_bool 0 (literal span) = true →
  Qle_bool lo' (round64 (literal lo + 0)) = true →
  Qle_bool (round64 (literal lo + round64 (largestDraw * literal span))) hi'
  = true →
  (lo' <= round64 (literal lo + round64 (r * literal span)) <= hi')%Q.
Proof.
  intros Hr Hlo%Qle_bool_iff Hspan%Qle_bool_iff Ha Hb.
  destruct (draw_times r (literal span) Hr Hspan) as (_ & H0 & H1).
  apply (round64_between (literal lo + 0)
           (literal lo + round64 (largestDraw * literal span))); try done; lra.
Qed.

(** An array of four elements is always indexed within its bounds. *)
Lemma at_index_draw {A} (array : list A) (r : Q) :
  length array = 4%nat → draw r →
  is_Some
    (at_index array
       (Math_floor (round64 (r * inject_Z (Z.of_nat (length array)))))).
Proof.
  intros Hlen Hr. rewrite Hlen. change (Z.of_nat 4) with 4.
  destruct (floored_scaled_draw 4 r Hr) as [Hge Hle]; [done|by vm_compute|].
  unfold at_index.
  destruct (Z.ltb_spec (Math_floor (round64 (r * inject_Z 4))) 0); [lia|].
  apply lookup_lt_is_Some. lia.
Qed.

(** On draws the mock generator returns an analysis, having taken nine
    draws. *)
Lemma getMockAnalysis_defined (random : nat → Q) (n : nat) :
  (∀ k, draw (random k)) →
  ∃ a, AIService.getMockAnalysis random n = (Some a, (n + 9)%nat).
Proof.
  intros Hr. unfold AIService.getMockAnalysis.
  destruct (at_index_draw AIService.severities (random n)) as [sev ->];
    [done|apply Hr|].
  destruct (at_index_draw AIService.riskLevels (random (n + 1)%nat))
    as [risk ->]; [done|apply Hr|].
  cbn [mbind option_bind]. by eexists.
Qed.

Lemma halves_draw (k : nat) : draw (halves k).
Proof. apply draw_half. Qed.

Lemma inject_Z_product (w l : Z) :
  20 <= w <= 70 → 25 <= l <= 85 →
  (round64 (inject_Z w * inject_Z l) == inject_Z w * inject_Z l)%Q.
Proof.
  intros Hw Hl. rewrite <- inject_Z_mult. apply round64_Z.
  change (2 ^ 53) with 9007199254740992. nia.
Qed.

(** C7: on draws of [Math.random()], binary64 numbers in [0, 1), and with
    every sum and product rounded as binary64 arithmetic rounds it, the
    mock generator returns an analysis, having taken nine draws, with
    confidence in [0.75, 0.95], severity confidence in [0.80, 0.95], width
    an integer in [20, 70], length an integer in [25, 85], depth an integer
    in [3, 18], risk score in [0, 1], priority an integer in [1, 10],
    area = width × length, volume = width × length × depth (both products
    are exact), and area and volume positive. *)
Theorem getMockAnalysis_ranges (random : nat → Q) (n : nat) :
  (∀ k, draw (random k)) →
  ∃ a, AIService.getMockAnalysis random n = (Some a, (n + 9)%nat)
       ∧ mockRanges a.
Proof.
  intros Hr. unfold AIService.getMockAnalysis.
  destruct (at_index_draw AIService.severities (random n)) as [sev ->];
    [done|apply Hr|].
  destruct (at_index_draw AIService.riskLevels (random (n + 1)%nat))
    as [risk ->]; [done|apply Hr|].
  cbn [mbind option_bind]. eexists. split; [reflexivity|].
  pose proof (rounded_draw_between 20 50 70 _ (Hr (n + 2)%nat)) as Hw.
  pose proof (rounded_draw_between 25 60 85 _ (Hr (n + 3)%nat)) as Hl.
  pose proof (rounded_draw_between 3 15 18 _ (Hr (n + 4)%nat)) as Hd.
  pose proof (floored_draw_between 1 10 10 _ (Hr (n + 8)%nat)) as Hp.
  pose proof (literal_draw_between (75 # 100) (2 # 10) (75 # 100) (95 # 100)
                _ (Hr (n + 5)%nat)) as Hc.
  pose proof (literal_draw_between (8 # 10) (15 # 100) (80 # 100) (95 # 100)
                _ (Hr (n + 6)%nat)) as Hs.
  pose proof (draw_range _ (Hr (n + 7)%nat)) as [Hk0 Hk1].
  change (inject_Z 20) with 20%Q in Hw. change (inject_Z 50) with 50%Q in Hw.
  change (inject_Z 25) with 25%Q in Hl. change (inject_Z 60) with 60%Q in Hl.
  change (inject_Z 3) with 3%Q in Hd. change (inject_Z 15) with 15%Q in Hd.
  change (inject_Z 1) with 1%Q in Hp. change (inject_Z 10) with 10%Q in Hp.
  set (w := Math_round (round64 (20 + round64 (random (n + 2)%nat * 50))))
    in *.
  set (l := Math_round (round64 (25 + round64 (random (n + 3)%nat * 60))))
    in *.
  set (d := Math_round (round64 (3 + round64 (random (n + 4)%nat * 15))))
    in *.
  specialize (Hw ltac:(done) ltac:(done) ltac:(by vm_compute)
                 ltac:(by vm_compute)).
  specialize (Hl ltac:(done) ltac:(done) ltac:(by vm_compute)
                 ltac:(by vm_compute)).
  specialize (Hd ltac:(done) ltac:(done) ltac:(by vm_compute)
                 ltac:(by vm_compute)).
  specialize (Hp ltac:(done) ltac:(done) ltac:(by vm_compute)
                 ltac:(by vm_compute)).
  specialize (Hc ltac:(by vm_compute) ltac:(by vm_compute)
                 ltac:(by vm_compute) ltac:(by vm_compute)).
  specialize (Hs ltac:(by vm_compute) ltac:(by vm_compute)
                 ltac:(by vm_compute) ltac:(by vm_compute)).
  pose proof (inject_Z_product w l Hw Hl) as Harea.
  assert (round64 (round64 (inject_Z w * inject_Z l) * inject_Z d)
          == inject_Z w * inject_Z l * inject_Z d)%Q as Hvolume.
  { assert (round64 (inject_Z w * inject_Z l) * inject_Z d
            == inject_Z (w * l * d))%Q as Hwld
      by (rewrite Harea; by rewrite !inject_Z_mult).
    assert (500 <= w * l <= 5950) as Hwl by nia.
    assert (0 <= inject_Z (w * l * d))%Q as H0
      by (change 0%Q with (inject_Z 0); rewrite <- Zle_Qle; nia).
    assert (0 <= round64 (inject_Z w * inject_Z l) * inject_Z d)%Q
      by (by rewrite Hwld).
    rewrite (round64_Qeq _ (inject_Z (w * l * d))) by done.
    transitivity (inject_Z (w * l * d)); [|by rewrite !inject_Z_mult].
    apply round64_Z.
    change (2 ^ 53) with 9007199254740992. nia. }
  unfold mockRanges.
  cbn [AIAnalysis.confidence AIAnalysis.severity_confidence
       AIAnalysis.dimensions AIAnalysis.risk_score AIAnalysis.priority
       AIAnalysis.area AIAnalysis.volume
       Dimensions.width Dimensions.length Dimensions.depth].
  destruct Hc as [? ?], Hs as [? ?].
  split_and!; try done; try by eexists.
  - assert (largestDraw <= 1)%Q by (by vm_compute). lra.
  - rewrite Harea, <- inject_Z_mult. change 0%Q with (inject_Z 0).
    rewrite <- Zlt_Qlt. nia.
  - rewrite Hvolume, <- !inject_Z_mult. change 0%Q with (inject_Z 0).
    rewrite <- Zlt_Qlt. nia.
Qed.

Lemma getMockAnalysis_ranges_witness :
  ∃ a, AIService.getMockAnalysis halves 0 = (Some a, 9%nat) ∧ mockRanges a.
Proof.
  apply (getMockAnalysis_ranges halves 0).
  intros k. exists (2 ^ 52), (-53). split; [|lia]. vm_compute. reflexivity.
Defined.





(** * Further properties *)

(** ** The store: delete, and how the operations compose *)

Lemma elem_of_ids i (s : Store) :
  i ∈ ids s ↔ ∃ r, r ∈ s ∧ PotholeReport.id r = i.
Proof.
  unfold ids. rewrite list_elem_of_fmap.
  split; [intros (r & -> & ?)|intros (r & ? & <-)]; eauto.
Qed.

Lemma deleteReport_absent i (s : Store) : i ∉ ids s → deleteReport i s = s.
Proof.
  unfold deleteReport, ids. induction s as [|r s IH]; [done|].
  rewrite fmap_cons, not_elem_of_cons. intros [Hne Hnin].
  rewrite filter_cons_True by done. by rewrite IH.
Qed.

Lemma deleteReport_gone i (s : Store) : i ∉ ids (deleteReport i s).
Proof.
  rewrite elem_of_ids. intros (r & Hr & Hid).
  unfold deleteReport in Hr. apply list_elem_of_filter in Hr as [Hne _]. done.
Qed.

Lemma deleteReport_greatest i (l s : Store) :
  l `sublist_of` s → Forall (λ r, PotholeReport.id r ≠ i) l →
  l `sublist_of` deleteReport i s.
Proof.
  unfold deleteReport. induction 1 as [|r l s Hls IH|r l s Hls IH]; intros Hl.
  - done.
  - apply Forall_cons in Hl as [Hr Hl].
    rewrite filter_cons_True by done. by apply sublist_skip, IH.
  - rewrite filter_cons. case_decide; [apply sublist_cons|]; by apply IH.
Qed.

Lemma deleteReport_length i (s : Store) :
  (length (deleteReport i s)
   + length (filter (λ r, PotholeReport.id r = i) s))%nat
  = length s.
Proof.
  unfold deleteReport. induction s as [|r s IH]; [done|].
  rewrite !filter_cons.
  destruct (decide (PotholeReport.id r = i)) as [Hr|Hr].
  - rewrite decide_False by tauto. cbn [length]. lia.
  - rewrite decide_True by done. cbn [length]. lia.
Qed.

(** X1: [deleteReport] removes every report that carries the identifier and
    nothing else: the result keeps exactly the other reports, each as often
    as it occurs and in their order.  It is the greatest sublist of the
    store without the identifier: a sublist in which no report carries
    the identifier, and which has every such sublist as a sublist; and it
    is shorter than the store by the number of reports that carry the
    identifier.  The identifier is gone afterwards, and deleting an
    identifier the store does not hold changes nothing. *)
Theorem deleteReport_removes_exactly (i : string) (s : Store) :
  (∀ r, r ∈ deleteReport i s ↔ r ∈ s ∧ PotholeReport.id r ≠ i)
  ∧ (deleteReport i s `sublist_of` s)
  ∧ (i ∉ ids (deleteReport i s))
  ∧ (i ∉ ids s → deleteReport i s = s)
  ∧ (∀ l, l `sublist_of` s → Forall (λ r, PotholeReport.id r ≠ i) l →
          l `sublist_of` deleteReport i s)
  ∧ (length (deleteReport i s)
     + length (filter (λ r, PotholeReport.id r = i) s))%nat
    = length s.
Proof.
  split_and!.
  - intros r. unfold deleteReport. rewrite list_elem_of_filter. tauto.
  - apply sublist_filter.
  - apply deleteReport_gone.
  - apply deleteReport_absent.
  - intros l. apply deleteReport_greatest.
  - apply deleteReport_length.
Qed.

Lemma deleteReport_removes_exactly_witness :
  deleteReport "7" mockReports = mockReports.
Proof.
  apply (deleteReport_removes_exactly "7" mockReports).
  apply (bool_decide_unpack _). vm_compute. exact I.
Defined.

(** X2: creating a report and then deleting its identifier restores the
    store, provided the identifier the clock gave was not in the store
    before; otherwise the delete also removes the older reports that carry
    it. *)
Theorem addReport_deleteReport (now today : Z) (d : Draft.t) (s : Store) :
  toString now ∉ ids s →
  deleteReport (toString now) (snd (addReport now today d s)) = s.
Proof.
  intros Hfresh. cbn [addReport snd]. unfold deleteReport.
  rewrite filter_cons_False by (cbn; tauto).
  by apply deleteReport_absent.
Qed.

Lemma addReport_deleteReport_witness :
  deleteReport (toString 1706000000000)
    (snd (addReport 1706000000000 1706000000005 sampleDraft mockReports))
  = mockReports.
Proof.
  apply (addReport_deleteReport 1706000000000 1706000000005 sampleDraft
           mockReports).
  apply (bool_decide_unpack _). vm_compute. exact I.
Defined.

Lemma default_default {A} (x : A) (o : option A) :
  default (default x o) o = default x o.
Proof. by destruct o. Qed.

Lemma default_later {A} (x : A) (o1 o2 : option A) :
  default (default x o1) o2 = default x (later o1 o2).
Proof. by destruct o2. Qed.

Lemma merge_merge r u1 u2 : merge (merge r u1) u2 = merge r (overlay u1 u2).
Proof. unfold merge, overlay. cbn. f_equal; apply default_later. Qed.

Lemma merge_idemp r u : merge (merge r u) u = merge r u.
Proof. unfold merge. cbn. f_equal; apply default_default. Qed.

Lemma id_merge_given r u :
  PotholeReport.id (merge r u) = default (PotholeReport.id r) (Partial.id u).
Proof. done. Qed.

(** X3: issuing the same update twice is the same as issuing it once,
    whatever keys it carries. *)
Theorem updateReport_idempotent (i : string) (u : Partial.t) (s : Store) :
  updateReport i u (updateReport i u s) = updateReport i u s.
Proof.
  unfold updateReport. rewrite <- list_fmap_compose.
  apply list_fmap_ext. intros _ r _. cbn.
  destruct (decide (PotholeReport.id r = i)) as [Hr|Hr].
  - case_decide; [apply merge_idemp|done].
  - by rewrite decide_False.
Qed.

(** X4: two updates for one identifier amount to the single update that
    spreads the second over the first (last write wins, key by key), as
    long as the first does not give the report another identifier. *)
Theorem updateReport_last_write_wins
    (i : string) (u1 u2 : Partial.t) (s : Store) :
  Partial.id u1 = None →
  updateReport i u2 (updateReport i u1 s) = updateReport i (overlay u1 u2) s.
Proof.
  intros Hid. unfold updateReport. rewrite <- list_fmap_compose.
  apply list_fmap_ext. intros _ r _. cbn.
  destruct (decide (PotholeReport.id r = i)) as [Hr|Hr].
  - rewrite decide_True by (by rewrite id_merge). apply merge_merge.
  - by rewrite decide_False.
Qed.

Lemma updateReport_last_write_wins_witness :
  updateReport "1" (AuthorityPanel.priorityUpdates 9)
    (updateReport "1" (AuthorityPanel.assignUpdates "Lisa Brown") mockReports)
  = updateReport "1"
      (Partial.mk None None None None (Some in_progress) None None None None
                  None (Some 9) (Some (Some "Lisa Brown")) None)
      mockReports.
Proof.
  apply (updateReport_last_write_wins "1"
           (AuthorityPanel.assignUpdates "Lisa Brown")
           (AuthorityPanel.priorityUpdates 9) mockReports).
  reflexivity.
Defined.

(** X5: updates for two different identifiers can be issued in either
    order, as long as neither carries an [id] key. *)
Theorem updateReport_commute
    (i j : string) (u v : Partial.t) (s : Store) :
  i ≠ j → Partial.id u = None → Partial.id v = None →
  updateReport i u (updateReport j v s) = updateReport j v (updateReport i u s).
Proof.
  intros Hij Hu Hv. unfold updateReport. rewrite <- !list_fmap_compose.
  apply list_fmap_ext. intros _ r _. cbn.
  destruct (decide (PotholeReport.id r = j)) as [Hj|Hj],
           (decide (PotholeReport.id r = i)) as [Hi|Hi]; try congruence.
  all: repeat (first [rewrite decide_True by (rewrite ?id_merge by done; congruence)
                     |rewrite decide_False by (rewrite ?id_merge by done; congruence)]).
  all: done.
Qed.

Lemma updateReport_commute_witness :
  updateReport "1" (AuthorityPanel.priorityUpdates 2)
    (updateReport "3" (AuthorityPanel.assignUpdates "") mockReports)
  = updateReport "3" (AuthorityPanel.assignUpdates "")
      (updateReport "1" (AuthorityPanel.priorityUpdates 2) mockReports).
Proof.
  apply (updateReport_commute "1" "3" (AuthorityPanel.priorityUpdates 2)
           (AuthorityPanel.assignUpdates "") mockReports);
    [discriminate|reflexivity..].
Defined.

Lemma ids_updateReport i u (s : Store) :
  Partial.id u = None → ids (updateReport i u s) = ids s.
Proof.
  intros Hu. unfold ids, updateReport. rewrite <- list_fmap_compose.
  apply list_fmap_ext. intros _ r _. cbn. case_decide; [|done].
  by apply id_merge.
Qed.

(** X6: once an identifier is deleted, an update for it does nothing; and
    deleting after an update that kept the identifier is the same as
    deleting alone: the update is lost with the report. *)
Theorem updateReport_deleteReport (i : string) (u : Partial.t) (s : Store) :
  updateReport i u (deleteReport i s) = deleteReport i s
  ∧ (Partial.id u = None →
     deleteReport i (updateReport i u s) = deleteReport i s).
Proof.
  split.
  - apply updateReport_absent, deleteReport_gone.
  - intros Hu. unfold deleteReport, updateReport.
    induction s as [|r s IH]; [done|].
    rewrite fmap_cons.
    destruct (decide (PotholeReport.id r = i)) as [Hr|Hr].
    + rewrite !filter_cons_False; [done|tauto|].
      rewrite id_merge by done. tauto.
    + rewrite !filter_cons_True by done. by rewrite IH.
Qed.

Lemma updateReport_deleteReport_witness :
  deleteReport "2" (updateReport "2" (AuthorityPanel.assignUpdates "") mockReports)
  = deleteReport "2" mockReports.
Proof.
  apply (updateReport_deleteReport "2" (AuthorityPanel.assignUpdates "")
           mockReports).
  reflexivity.
Defined.

Lemma ids_deleteReport i (s : Store) :
  ids (deleteReport i s) `sublist_of` ids s.
Proof. unfold ids, deleteReport. apply fmap_sublist, sublist_filter. Qed.

(** X7: while the identifiers in the store are pairwise distinct, an update
    rewrites a single entry: the report with that identifier is replaced in
    place by the merged one and every other entry is untouched.  Updates
    without an [id] key and deletes keep the identifiers distinct. *)
Theorem updateReport_single_entry
    (i : string) (u : Partial.t) (s : Store) (k : nat) (r : Report) :
  NoDup (ids s) →
  s !! k = Some r → PotholeReport.id r = i →
  updateReport i u s = <[k := merge r u]> s
  ∧ (Partial.id u = None → NoDup (ids (updateReport i u s)))
  ∧ NoDup (ids (deleteReport i s)).
Proof.
  intros Hnd Hk Hr. split_and!.
  - apply list_eq. intros j. unfold updateReport. rewrite list_lookup_fmap.
    destruct (decide (j = k)) as [->|Hjk].
    + rewrite list_lookup_insert_eq by (by eapply lookup_lt_Some).
      rewrite Hk. cbn. by rewrite decide_True.
    + rewrite list_lookup_insert_ne by done.
      destruct (s !! j) as [r'|] eqn:Hj; [|done]. cbn.
      rewrite decide_False; [done|]. intros Hr'. apply Hjk.
      eapply NoDup_lookup; [exact Hnd| |].
      * unfold ids. rewrite list_lookup_fmap, Hj. cbn. by rewrite Hr'.
      * unfold ids. rewrite list_lookup_fmap, Hk. cbn. by rewrite Hr.
  - intros Hu. by rewrite ids_updateReport.
  - eapply sublist_NoDup; [exact Hnd|apply ids_deleteReport].
Qed.

Lemma updateReport_single_entry_witness :
  updateReport "2" (AuthorityPanel.priorityUpdates 7) mockReports
  = <[1%nat :=
        PotholeReport.mk "2" "Oak Road near School"
          (mkCoordinates (407589 # 10000) (-739851 # 10000))
          critical in_progress date_2024_01_14_1420 "Sarah Wilson"
          "Deep pothole in school zone - safety hazard"
          (Some pexels_2448749)
          (Some (ReportAnalysis.mk (96 # 100) (Dimensions.mk 55 12 70)
                                   "Critical Risk"))
          7 (Some "Mike Johnson") None]> mockReports.
Proof.
  eapply (proj1 (updateReport_single_entry "2" (AuthorityPanel.priorityUpdates 7)
                   mockReports 1 _ _ eq_refl eq_refl)).
  Unshelve. apply (bool_decide_unpack _). vm_compute. exact I.
Defined.

(** ** What the views keep *)

Lemma Forall_updateReport (P : Report → Prop) i u (s : Store) :
  (∀ r, P r → P (merge r u)) → Forall P s → Forall P (updateReport i u s).
Proof.
  intros HP Hs. unfold updateReport. apply Forall_fmap.
  eapply Forall_impl; [exact Hs|]. intros r Hr. cbn.
  case_decide; [by apply HP|done].
Qed.

Lemma act_resolvedStamped (s : Store) (a : ViewAction) :
  resolvedStamped s → resolvedStamped (act s a).
Proof.
  unfold resolvedStamped. intros Hs.
  destruct a as [st now today|report today newStatus|i assignee|i p];
    cbn [act].
  - constructor; [|done]. cbn. discriminate.
  - apply Forall_updateReport; [|done]. intros r Hr.
    destruct newStatus; cbn; try discriminate. eauto.
  - apply Forall_updateReport; [|done]. intros r Hr. cbn. discriminate.
  - by apply Forall_updateReport.
Qed.

(** X8: no sequence of view actions (submitting a report, changing a
    status on a card, assigning, changing a priority) leads from a store in
    which every resolved report has a resolution timestamp to one in which
    some resolved report lacks it. *)
Theorem views_keep_resolved_stamped (actions : list ViewAction) (s : Store) :
  resolvedStamped s → resolvedStamped (foldl act s actions).
Proof.
  revert s. induction actions as [|a actions IH]; intros s Hs; [done|].
  cbn [foldl]. by apply IH, act_resolvedStamped.
Qed.

Lemma views_keep_resolved_stamped_witness :
  resolvedStamped
    (foldl act mockReports
       [ Assign "1" "Mike Johnson";
         ChangeStatus (created (mkCreate 1 1 sampleDraft)) 1706000000000 resolved;
         Submit ReportPothole.reset 1706000000001 1706000000001;
         ChangeStatus (created (mkCreate 3 3 sampleDraft)) 1706000000002 pending ]).
Proof.
  apply (views_keep_resolved_stamped _ mockReports).
  apply (bool_decide_unpack _). vm_compute. exact I.
Defined.

Lemma act_prioritiesInRange (s : Store) (a : ViewAction) :
  offered a → prioritiesInRange s → prioritiesInRange (act s a).
Proof.
  unfold prioritiesInRange. intros Ha Hs.
  destruct a as [st now today|report today newStatus|i assignee|i p];
    cbn [act].
  - constructor; [|done]. cbn. repeat case_decide; lia.
  - apply Forall_updateReport; [|done]. intros r Hr. by destruct newStatus.
  - by apply Forall_updateReport.
  - apply Forall_updateReport; [|done]. intros r Hr. exact Ha.
Qed.

Lemma foldl_act_prioritiesInRange (actions : list ViewAction) (s : Store) :
  Forall offered actions → prioritiesInRange s →
  prioritiesInRange (foldl act s actions).
Proof.
  intros Hoff. revert s.
  induction Hoff as [|a actions Ha _ IH]; intros s Hs; [done|].
  cbn [foldl]. by apply IH, act_prioritiesInRange.
Qed.

(** X9: priorities stay between 1 and 10 under every sequence of view
    actions in which each priority change picks one of the values the
    authority panel offers; the handler itself would store any number.
    A submission always creates a report, the new head of the store, with
    priority 3, 5, 8 or 10. *)
Theorem views_keep_priorities_in_range
    (actions : list ViewAction) (s : Store) :
  (Forall offered actions → prioritiesInRange s →
   prioritiesInRange (foldl act s actions))
  ∧ (∀ st now today,
       ∃ r, act s (Submit st now today) = r :: s
            ∧ PotholeReport.priority r ∈ [3; 5; 8; 10]).
Proof.
  split; [apply foldl_act_prioritiesInRange|].
  intros st now today. eexists. split; [reflexivity|].
  cbn. repeat case_decide; rewrite !elem_of_cons; tauto.
Qed.

Lemma views_keep_priorities_in_range_witness :
  prioritiesInRange
    (foldl act mockReports
       [ ChangePriority "1" 10; Submit ReportPothole.reset 5 5;
         ChangePriority "3" 1 ]).
Proof.
  apply (proj1 (views_keep_priorities_in_range _ mockReports)).
  - repeat constructor; cbn; lia.
  - repeat constructor; cbn; lia.
Defined.

Lemma identity_act_update i u (s : Store) :
  Partial.id u = None → Partial.reportedAt u = None →
  identity <$> updateReport i u s = identity <$> s.
Proof.
  intros Hid Hat. unfold updateReport. rewrite <- list_fmap_compose.
  apply list_fmap_ext. intros _ r _. cbn. case_decide; [|done].
  by apply identity_merge.
Qed.

(** X10: the views never delete, reorder or re-identify a report: after
    any sequence of view actions the store is its earlier contents, in
    place and with identifiers and creation timestamps as before, behind
    one new report for each submission. *)
Theorem views_only_prepend (actions : list ViewAction) (s : Store) :
  ∃ fresh,
    identity <$> foldl act s actions = fresh ++ (identity <$> s)
    ∧ length fresh = length (filter (λ a, isSubmit a) actions).
Proof.
  revert s. induction actions as [|a actions IH]; intros s.
  - by exists [].
  - cbn [foldl]. destruct (IH (act s a)) as (fresh & -> & Hlen).
    destruct a as [st now today|report today newStatus|i assignee|i p];
      cbn [act];
      [rewrite filter_cons_True by exact I
      |rewrite filter_cons_False by (intros []); exists fresh;
       (split; [|done]); f_equal..].
    + eexists (fresh ++ [_]). split.
      * rewrite <- app_assoc. reflexivity.
      * rewrite length_app, Hlen. cbn. lia.
    + apply identity_act_update; by destruct newStatus.
    + by apply identity_act_update.
    + by apply identity_act_update.
Qed.

(** ** The dashboard's tiles and list *)

(** X11: the dashboard's total is the sum of its pending, in-progress and
    resolved tiles and the number of rejected reports, for which there is
    no tile; and the critical tile never exceeds the total. *)
Theorem dashboardStats_partition (reports : Store) :
  let stats := dashboardStats reports in
  Stats.total stats
  = (Stats.pending stats + Stats.inProgress stats + Stats.resolved stats
     + length (filter (λ r, PotholeReport.status r = rejected) reports))%nat
  ∧ (Stats.critical stats <= Stats.total stats)%nat.
Proof.
  cbv zeta. unfold dashboardStats. cbn [Stats.total Stats.pending
    Stats.inProgress Stats.resolved Stats.critical]. split.
  - induction reports as [|r reports IH]; [done|].
    rewrite !filter_cons. cbn [length]. rewrite IH.
    destruct (PotholeReport.status r);
      repeat (case_decide; try congruence); cbn [length]; lia.
  - apply length_filter.
Qed.

Section sort_more.
Context {A : Type} (comparefn : A → A → Z).

Lemma sort_insert_first x l :
  Forall (λ y, comparefn x y <= 0) l → sort_insert comparefn x l = x :: l.
Proof. destruct 1; [done|]. by apply sort_insert_le. Qed.

Lemma Array_sort_cons x l :
  Array_sort comparefn (x :: l) = sort_insert comparefn x (Array_sort comparefn l).
Proof. done. Qed.

Lemma Array_sort_fixed (R : A → A → Prop) l :
  (∀ x y, R x y → comparefn x y <= 0) →
  StronglySorted R l → Array_sort comparefn l = l.
Proof.
  intros HR. induction 1 as [|x l Hl IH Hx]; [done|].
  rewrite Array_sort_cons, IH. apply sort_insert_first.
  eapply Forall_impl; [exact Hx|]. intros y. apply HR.
Qed.

Lemma filter_sort_insert (P : A → Prop) `{!∀ x, Decision (P x)} x l :
  (∀ x y, P x → P y → comparefn x y <= 0) →
  filter P (sort_insert comparefn x l) = filter P (x :: l).
Proof.
  intros HP. induction l as [|y l IH]; [done|]. cbn [sort_insert].
  destruct (Z.leb_spec (comparefn x y) 0) as [Hle|Hgt]; [done|].
  rewrite filter_cons, IH, !(filter_cons _ x), (filter_cons _ y).
  destruct (decide (P x)) as [Hx|Hx], (decide (P y)) as [Hy|Hy]; try done.
  specialize (HP x y Hx Hy). lia.
Qed.

Lemma filter_Array_sort (P : A → Prop) `{!∀ x, Decision (P x)} l :
  (∀ x y, P x → P y → comparefn x y <= 0) →
  filter P (Array_sort comparefn l) = filter P l.
Proof.
  intros HP. induction l as [|x l IH]; [done|].
  rewrite Array_sort_cons, filter_sort_insert by done.
  by rewrite !filter_cons, IH.
Qed.
End sort_more.

Lemma before_comparefn a b : before a b → Dashboard.comparefn a b <= 0.
Proof. unfold Dashboard.comparefn, before. case_decide; lia. Qed.

(** X12: the dashboard's order is a fixed point of its sort: sorting the
    sorted list again changes nothing, and the sorted list has the length
    of the store. *)
Theorem sortedReports_idempotent (reports : Store) :
  Dashboard.sortedReports (Dashboard.sortedReports reports)
  = Dashboard.sortedReports reports
  ∧ length (Dashboard.sortedReports reports) = length reports.
Proof.
  split.
  - unfold Dashboard.sortedReports.
    apply (Array_sort_fixed _ before); [apply before_comparefn|].
    apply Array_sort_sorted; [apply _|apply comparefn_le|apply comparefn_gt].
  - apply Permutation_length, Array_sort_Permutation.
Qed.

(** X13: reports that tie, with the same priority and the same creation
    timestamp, appear in the dashboard in the order they have in the
    store. *)
Theorem sortedReports_stable (p t : Z) (reports : Store) :
  filter (λ r, PotholeReport.priority r = p ∧ PotholeReport.reportedAt r = t)
         (Dashboard.sortedReports reports)
  = filter (λ r, PotholeReport.priority r = p ∧ PotholeReport.reportedAt r = t)
           reports.
Proof.
  apply filter_Array_sort. intros x y [Hpx Htx] [Hpy Hty].
  unfold Dashboard.comparefn. case_decide; lia.
Qed.

(** X14: the first report of the dashboard's list is a report of the store
    with the greatest priority; the list is empty only for an empty
    store. *)
Theorem sortedReports_head_greatest (reports : Store) :
  match Dashboard.sortedReports reports with
  | [] => reports = []
  | h :: _ =>
      h ∈ reports
      ∧ Forall (λ r, PotholeReport.priority r <= PotholeReport.priority h)
               reports
  end.
Proof.
  pose proof (Array_sort_Permutation Dashboard.comparefn reports) as Hperm.
  pose proof (Array_sort_sorted Dashboard.comparefn before comparefn_le
                comparefn_gt reports) as Hsorted.
  fold (Dashboard.sortedReports reports) in Hperm, Hsorted.
  destruct (Dashboard.sortedReports reports) as [|h l].
  - symmetry. by apply Permutation_nil_l.
  - split.
    + rewrite <- Hperm. apply list_elem_of_here.
    + rewrite <- Hperm. apply StronglySorted_inv in Hsorted as [_ Hh].
      constructor; [lia|].
      eapply Forall_impl; [exact Hh|]. unfold before. intros r. cbn. lia.
Qed.

(** X15: a report submitted as critical heads the dashboard's list, the
    rest of the list staying as it was, provided no report of the store
    outranks it: none has a priority above 10, and none of priority 10 is
    more recent than the new report's timestamp. *)
Theorem critical_submission_heads_dashboard
    (st : ReportPothole.State) (now today : Z) (s : Store) :
  ReportPothole.severity (ReportPothole.formData st) = critical →
  Forall (outrankedAt today) s →
  ∃ r, act s (Submit st now today) = r :: s
       ∧ Dashboard.sortedReports (r :: s) = r :: Dashboard.sortedReports s.
Proof.
  intros Hsev Hs. eexists. split; [reflexivity|].
  unfold Dashboard.sortedReports. rewrite Array_sort_cons.
  apply sort_insert_first. rewrite Array_sort_Permutation.
  eapply Forall_impl; [exact Hs|]. intros r Hr.
  assert (Draft.priority (ReportPothole.submitted st) = 10) as Hp.
  { unfold ReportPothole.submitted. cbn [Draft.priority].
    by rewrite decide_True. }
  unfold Dashboard.comparefn, outrankedAt in *.
  cbn [ReportPothole.handleSubmit App.handleReportSubmit App.reports snd
       addReport newReport PotholeReport.priority PotholeReport.reportedAt].
  rewrite Hp. case_decide; lia.
Qed.

Lemma critical_submission_heads_dashboard_witness :
  ∃ r, act mockReports (Submit criticalForm 1706000000000 1706000000000)
       = r :: mockReports
       ∧ Dashboard.sortedReports (r :: mockReports)
         = r :: Dashboard.sortedReports mockReports.
Proof.
  apply (critical_submission_heads_dashboard criticalForm 1706000000000
           1706000000000 mockReports); [reflexivity|].
  unfold outrankedAt. apply (bool_decide_unpack _). vm_compute. exact I.
Defined.

(** ** The authority panel's filters *)

Lemma shown_passes f r : shown f r ↔ passes f r.
Proof.
  destruct f; unfold shown, passes; cbn.
  - done.
  - destruct (PotholeReport.status r); cbn; split; (done || discriminate).
  - destruct (PotholeReport.status r); cbn; split; (done || discriminate).
  - apply bool_decide_spec.
Qed.

(** X16: each filter of the authority panel shows, in store order, exactly
    the reports it names: all of them, those with status pending, those
    with status in-progress, or those of critical severity whatever their
    status; filtering twice is filtering once; and the urgent reports are
    the unresolved ones among those the critical filter shows. *)
Theorem filteredReports_shows (f : Filter.t) (reports : Store) :
  filteredReports f reports = filter (passes f) reports
  ∧ filteredReports Filter.all reports = reports
  ∧ (filteredReports f reports `sublist_of` reports)
  ∧ filteredReports f (filteredReports f reports) = filteredReports f reports
  ∧ urgentReports reports
    = filter (λ r, PotholeReport.status r ≠ resolved)
             (filteredReports Filter.critical reports).
Proof.
  assert (∀ g l, filteredReports g l = filter (passes g) l) as Hshow.
  { intros g l. unfold filteredReports. induction l as [|r l IH]; [done|].
    rewrite !filter_cons, IH.
    destruct (decide (shown g r)) as [H|H], (decide (passes g r)) as [H'|H'];
      try done.
    - destruct H'. by apply shown_passes.
    - destruct H. by apply shown_passes. }
  split_and!.
  - apply Hshow.
  - rewrite Hshow. induction reports as [|r l IH]; [done|].
    by rewrite filter_cons_True, IH.
  - apply sublist_filter.
  - rewrite !Hshow, list_filter_filter. apply list_filter_iff. tauto.
  - rewrite Hshow, list_filter_filter. unfold urgentReports.
    apply list_filter_iff. intros r. cbn. tauto.
Qed.

(** X17: after the assign action every report with the given identifier
    has status in-progress, so the pending filter shows none of them; and
    the action leaves every resolution timestamp in the store as it was, so
    a resolved report that is assigned again is in progress with its old
    resolution timestamp still set. *)
Theorem handleAssign_reopens (reportId assignee : string) (s : Store) :
  let s' := AuthorityPanel.handleAssign updateReport reportId assignee s in
  Forall (λ r, PotholeReport.id r = reportId →
               PotholeReport.status r = in_progress) s'
  ∧ Forall (λ r, PotholeReport.id r ≠ reportId)
           (filteredReports Filter.pending s')
  ∧ PotholeReport.resolvedAt <$> s' = PotholeReport.resolvedAt <$> s
  ∧ ids s' = ids s.
Proof.
  cbv zeta. unfold AuthorityPanel.handleAssign.
  assert (Forall (λ r, PotholeReport.id r = reportId →
                       PotholeReport.status r = in_progress)
                 (updateReport reportId (AuthorityPanel.assignUpdates assignee) s))
    as Hs'.
  { unfold updateReport. apply Forall_fmap, Forall_forall. intros r _. cbn.
    case_decide; [done|]. tauto. }
  split_and!.
  - done.
  - apply Forall_forall. intros r Hr Hid.
    unfold filteredReports in Hr. apply list_elem_of_filter in Hr as [Hshown Hin].
    apply shown_passes in Hshown. cbn in Hshown.
    rewrite Forall_forall in Hs'. specialize (Hs' r Hin Hid). congruence.
  - unfold updateReport. rewrite <- list_fmap_compose.
    apply list_fmap_ext. intros _ r _. cbn. by case_decide.
  - by apply ids_updateReport.
Qed.

Lemma handleAssign_reopens_witness :
  Forall (λ r, PotholeReport.id r = "3" → PotholeReport.status r = in_progress)
         (AuthorityPanel.handleAssign updateReport "3" "" mockReports)
  ∧ PotholeReport.resolvedAt
      <$> AuthorityPanel.handleAssign updateReport "3" "" mockReports
    = [None; None; Some date_2024_01_13_1645].
Proof.
  destruct (handleAssign_reopens "3" "" mockReports) as (H1 & _ & H2 & _).
  split; [exact H1|exact H2].
Defined.

(** ** Analytics: the other figures *)

Lemma omap_wholeDays_stamped (l : Store) :
  omap wholeDays (filter (λ r, is_Some (PotholeReport.resolvedAt r)) l)
  = omap wholeDays l.
Proof.
  induction l as [|r l IH]; [done|]. rewrite filter_cons.
  destruct (PotholeReport.resolvedAt r) as [t|] eqn:Ht.
  - rewrite decide_True by eauto. cbn. by rewrite IH.
  - rewrite decide_False by (by intros [? ?]). cbn.
    unfold wholeDays at 2. rewrite Ht. cbn. done.
Qed.

Lemma Forall_filter_stamped (P : Report → Prop) `{!∀ r, Decision (P r)}
    (l : Store) :
  Forall (λ r, is_Some (PotholeReport.resolvedAt r))
         (filter (λ r, P r ∧ is_Some (PotholeReport.resolvedAt r)) l).
Proof.
  apply Forall_forall. intros r Hr. by apply list_elem_of_filter in Hr as [[_ ?] _].
Qed.

(** X18: for every list of reports the average resolution time is
    computed without an exception: the guard of the sum keeps the reduce
    from reading a missing resolution timestamp.  Its value is 0 when no
    report is resolved, and otherwise the sum of the whole-day resolution
    times of the resolved reports that have a timestamp, divided by the
    number of all resolved reports. *)
Theorem avgResolutionTime_total (reports : Store) :
  Analytics.avgResolutionTime reports
  = Some (if decide (0 < AnalyticsView.resolvedReports reports)%nat
          then (inject_Z (foldr Z.add 0%Z (resolvedDays reports))
                / inject_Z (Z.of_nat (AnalyticsView.resolvedReports reports)))%Q
          else 0%Q).
Proof.
  unfold Analytics.avgResolutionTime, AnalyticsView.resolvedReports, resolvedDays.
  case_decide; [|done].
  destruct (reduce_days
              (filter (λ r, PotholeReport.status r = resolved
                            ∧ is_Some (PotholeReport.resolvedAt r)) reports) 0)
    as [-> _]; [apply Forall_filter_stamped|].
  cbn [mbind option_bind]. rewrite Z.add_0_l. do 4 f_equal.
  rewrite <- (omap_wholeDays_stamped
                (filter (λ r, PotholeReport.status r = resolved) reports)).
  rewrite list_filter_filter. f_equal. apply list_filter_iff. tauto.
Qed.

(** X19: the four severity counts of the distribution chart add up to the
    number of reports. *)
Theorem severityStats_partition (reports : Store) :
  let stats := AnalyticsView.severityStats reports in
  (SeverityStats.critical stats + SeverityStats.high stats
   + SeverityStats.medium stats + SeverityStats.low stats)%nat
  = AnalyticsView.totalReports reports.
Proof.
  cbv zeta. unfold AnalyticsView.severityStats, AnalyticsView.totalReports.
  cbn [SeverityStats.critical SeverityStats.high SeverityStats.medium
       SeverityStats.low].
  induction reports as [|r reports IH]; [done|].
  rewrite !filter_cons. cbn [length]. rewrite <- IH.
  destruct (PotholeReport.severity r);
    repeat (case_decide; try congruence); cbn [length]; lia.
Qed.

Lemma filter_Forall_id {A} (P : A → Prop) `{!∀ x, Decision (P x)} (l : list A) :
  Forall P l → filter P l = l.
Proof.
  induction 1 as [|x l Hx _ IH]; [done|].
  rewrite filter_cons_True by done. by f_equal.
Qed.

Lemma ratio_bounds (r t : Z) :
  0 <= r <= t → 0 < t → (0 <= inject_Z r / inject_Z t <= 1)%Q.
Proof.
  intros [Hr Hrt] Ht.
  assert (0 < inject_Z t)%Q as HtQ.
  { change 0%Q with (inject_Z 0). by rewrite <- Zlt_Qlt. }
  split.
  - apply Qle_shift_div_l; [done|]. rewrite Qmult_0_l.
    change 0%Q with (inject_Z 0). by rewrite <- Zle_Qle.
  - apply Qle_shift_div_r; [done|]. rewrite Qmult_1_l. by rewrite <- Zle_Qle.
Qed.

Lemma percent_between (q lo hi : Q) :
  (0 <= lo)%Q → (lo <= q <= hi)%Q →
  Math_round (round64 (round64 lo * 100))
  <= Math_round (round64 (round64 q * 100))
  <= Math_round (round64 (round64 hi * 100)).
Proof.
  intros Hlo [Hq1 Hq2].
  assert (0 <= q)%Q as Hq0 by (by eapply Qle_trans).
  pose proof (round64_nonneg lo Hlo) as H0.
  pose proof (round64_nonneg q Hq0) as H1.
  pose proof (round64_mono lo q Hlo Hq1) as H2.
  pose proof (round64_mono q hi Hq0 Hq2) as H3.
  unfold Math_round.
  split; apply Qfloor_resp_le, Qplus_le_l, round64_mono; lra.
Qed.

(** X20: the resolution rate shown is a whole percentage between 0 and
    100; it is 0 for an empty store and when no report is resolved, and
    100 when the store is not empty and every report is resolved.  (The
    quotient and the product are rounded as binary64 arithmetic rounds
    them.) *)
Theorem resolutionRate_bounds (reports : Store) :
  0 <= AnalyticsView.resolutionRate reports <= 100
  ∧ (AnalyticsView.resolvedReports reports = 0%nat →
     AnalyticsView.resolutionRate reports = 0)
  ∧ (reports ≠ [] →
     Forall (λ r, PotholeReport.status r = resolved) reports →
     AnalyticsView.resolutionRate reports = 100).
Proof.
  unfold AnalyticsView.resolutionRate, AnalyticsView.totalReports,
    AnalyticsView.resolvedReports.
  split; [|split].
  - case_decide as Htot; [|lia].
    pose proof (ratio_bounds
                (Z.of_nat (length (filter (λ r, PotholeReport.status r = resolved)
                                          reports)))
                (Z.of_nat (length reports))) as Hq.
    pose proof (length_filter (λ r, PotholeReport.status r = resolved) reports).
    apply (percent_between _ 0 1); [done|].
    apply Hq; lia.
  - intros ->. case_decide; [|done].
    cut (0 <= Math_round
                (round64
                   (round64
                      (inject_Z (Z.of_nat 0)
                       / inject_Z (Z.of_nat (length reports))) * 100)) <= 0);
      [lia|].
    apply (percent_between _ 0 0); [done|].
    change (inject_Z (Z.of_nat 0)) with 0%Q. unfold Qdiv.
    rewrite Qmult_0_l. done.
  - intros Hne Hall. rewrite decide_True by (destruct reports; [done|cbn; lia]).
    rewrite filter_Forall_id by done.
    cut (100 <= Math_round
                  (round64
                     (round64
                        (inject_Z (Z.of_nat (length reports))
                         / inject_Z (Z.of_nat (length reports))) * 100))
         <= 100); [lia|].
    apply (percent_between _ 1 1); [done|].
    unfold Qdiv. rewrite Qmult_inv_r; [done|].
    destruct reports; [done|]. unfold Qeq. cbn. lia.
Qed.

Lemma resolutionRate_bounds_witness :
  AnalyticsView.resolutionRate (take 2 mockReports) = 0
  ∧ AnalyticsView.resolutionRate (drop 2 mockReports) = 100.
Proof.
  split.
  - apply (resolutionRate_bounds (take 2 mockReports)). reflexivity.
  - apply (resolutionRate_bounds (drop 2 mockReports)); [done|].
    repeat constructor.
Defined.

Lemma monthlyDataFrom_ranges (random : nat → Q) (ms : list string) (n : nat) :
  (∀ k, draw (random k)) →
  ∃ data, AnalyticsView.monthlyDataFrom random n ms
          = (data, (n + 2 * length ms)%nat)
          ∧ MonthData.month <$> data = ms
          ∧ Forall monthInRange data.
Proof.
  intros Hu. revert n. induction ms as [|m ms IH]; intros n.
  - exists []. split_and!; [|done|constructor]. cbn. f_equal. lia.
  - cbn [AnalyticsView.monthlyDataFrom].
    destruct (IH (n + 2)%nat) as (data & -> & Hm & Hr).
    eexists. split_and!.
    + f_equal. cbn [length]. lia.
    + cbn. by rewrite Hm.
    + constructor; [|done]. unfold monthInRange. cbn [MonthData.reports
        MonthData.resolved].
      destruct (floored_scaled_draw 20 (random n) (Hu n));
        [done|by vm_compute|].
      destruct (floored_scaled_draw 15 (random (n + 1)%nat) (Hu (n + 1)%nat));
        [done|by vm_compute|].
      change (inject_Z 20) with 20%Q in *. change (inject_Z 15) with 15%Q in *.
      lia.
Qed.

(** X21: on draws of [Math.random()], binary64 numbers in [0, 1), the
    trend chart gets six entries, Jan to Jun in order, from twelve draws,
    each with a report count between 5 and 24 and a resolved count between
    3 and 17.  (The products are rounded as binary64 arithmetic rounds
    them.) *)
Theorem monthlyData_ranges (random : nat → Q) (n : nat) :
  (∀ k, draw (random k)) →
  ∃ data, AnalyticsView.monthlyData random n = (data, (n + 12)%nat)
          ∧ MonthData.month <$> data = AnalyticsView.months
          ∧ Forall monthInRange data.
Proof.
  intros Hu. apply (monthlyDataFrom_ranges random AnalyticsView.months n Hu).
Qed.

Lemma monthlyData_ranges_witness :
  ∃ data, AnalyticsView.monthlyData halves 0 = (data, 12%nat)
          ∧ MonthData.month <$> data = AnalyticsView.months
          ∧ Forall monthInRange data.
Proof.
  apply (monthlyData_ranges halves 0).
  intros k. exists (2 ^ 52), (-53). split; [|lia]. vm_compute. reflexivity.
Defined.

(** ** The AI client's other calls *)

(** X22: [checkHealth] and [trainModel] never throw.  [checkHealth] gives
    true only for a response whose status is "healthy" and whose model is
    available, [trainModel] only for a response reporting success; every
    failed request and every response without data gives false. *)
Theorem checkHealth_trainModel_never_throw
    (health : Reply HealthData) (train : Reply TrainData) :
  (∃ b, AIClient.checkHealth health = Returns b
        ∧ (b = true ↔ health = Fulfilled (Some (mkHealth "healthy" true))))
  ∧ (∃ b, AIClient.trainModel train = Returns b
          ∧ (b = true ↔ train = Fulfilled (Some (mkTrain true)))).
Proof.
  split.
  - destruct health as [[[st av]|]|e]; cbn; eexists; (split; [reflexivity|]);
      try (split; [discriminate|by intros [=]]).
    destruct (String.eqb_spec st "healthy") as [->|Hne], av; cbn;
      split; try done; try discriminate; intros [=]; done.
  - destruct train as [[[ok]|]|e]; cbn; eexists; (split; [reflexivity|]);
      try (split; [discriminate|by intros [=]]).
    destruct ok; split; try done; try discriminate; intros [=].
Qed.

(** X23: [getSampleAnalysis] never throws.  A response with data returns
    the analysis of the response and draws nothing; everything else, a
    failed request of any kind or a response without data, returns the
    result of the mock generator, which on draws of [Math.random()],
    binary64 numbers in [0, 1), is an analysis, made from nine draws. *)
Theorem getSampleAnalysis_falls_back
    (reply : Reply SampleData) (random : nat → Q) (n : nat) :
  (∀ data, reply = Fulfilled (Some data) →
     AIClient.getSampleAnalysis reply random n
     = (Returns (sample_analysis data), n))
  ∧ (¬ hasData reply →
     AIClient.getSampleAnalysis reply random n
     = (Returns (fst (AIService.getMockAnalysis random n)),
        snd (AIService.getMockAnalysis random n)))
  ∧ (¬ hasData reply → (∀ k, draw (random k)) →
     ∃ a, AIClient.getSampleAnalysis reply random n
          = (Returns (Some a), (n + 9)%nat)).
Proof.
  assert (¬ hasData reply →
          AIClient.getSampleAnalysis reply random n
          = (Returns (fst (AIService.getMockAnalysis random n)),
             snd (AIService.getMockAnalysis random n))) as Hmock.
  { intros Hno. unfold AIClient.getSampleAnalysis.
    destruct reply as [[data|]|e]; cbn.
    - destruct Hno. by exists data.
    - by destruct (AIService.getMockAnalysis random n).
    - by destruct (AIService.getMockAnalysis random n). }
  split_and!.
  - by intros data ->.
  - done.
  - intros Hno Hu. rewrite Hmock by done.
    destruct (getMockAnalysis_defined random n Hu) as [a ->]. by exists a.
Qed.

Lemma getSampleAnalysis_falls_back_witness :
  ∃ a, AIClient.getSampleAnalysis
         (Failed (AxiosError (Some "ERR_BAD_RESPONSE")
                    "Request failed with status code 500")) halves 0
       = (Returns (Some a), 9%nat).
Proof.
  apply (getSampleAnalysis_falls_back
           (Failed (AxiosError (Some "ERR_BAD_RESPONSE")
                      "Request failed with status code 500")) halves 0).
  - intros [data H]. discriminate H.
  - intros k. exists (2 ^ 52), (-53). split; [|lia]. vm_compute.
    reflexivity.
Defined.

(** X24: [analyzePotholeBatch] has no fallback: a refused connection, any
    other failed request, a response without data and a response with a
    false [success] all throw "Failed to analyze pothole images in batch";
    a response with a true [success] returns its results, and the empty
    list when it has none.  [getModelInfo] throws "Failed to get AI model
    information" for every failed request, the refused connection
    included. *)
Theorem batch_and_modelInfo_propagate
    (batch : Reply BatchData) (info : Reply ModelInfo) :
  (∀ results,
     batch = Fulfilled (Some (mkBatch true results)) →
     AIClient.analyzePotholeBatch batch = Returns (default [] results))
  ∧ ((∀ results, batch ≠ Fulfilled (Some (mkBatch true results))) →
     AIClient.analyzePotholeBatch batch
     = Throws (Error "Failed to analyze pothole images in batch"))
  ∧ (∀ e, info = Failed e →
       AIClient.getModelInfo info
       = Throws (Error "Failed to get AI model information")).
Proof.
  split_and!.
  - by intros results ->.
  - intros Hno. destruct batch as [[[[] results]|]|e]; cbn; try done.
    by destruct (Hno results).
  - by intros e ->.
Qed.

Lemma batch_and_modelInfo_propagate_witness :
  AIClient.analyzePotholeBatch refusedReply
  = Throws (Error "Failed to analyze pothole images in batch")
  ∧ AIClient.getModelInfo refusedReply
    = Throws (Error "Failed to get AI model information").
Proof.
  split.
  - apply (proj1 (proj2 (batch_and_modelInfo_propagate refusedReply refusedReply))).
    intros results H. discriminate H.
  - eapply (proj2 (proj2 (batch_and_modelInfo_propagate refusedReply refusedReply))).
    reflexivity.
Defined.

(** ** The report form: upload, analysis and submission *)

(** X25: two uploads whose analyses overlap race: the preview is the
    second file's, but the analysis kept is the one that settles last, so
    when the first upload's result arrives last the form shows the second
    image with the first image's analysis; and the pending flag is already
    cleared when the first of the two settles, with the other request
    still outstanding. *)
Theorem overlapping_analyses_race
    (f1 f2 : File) (a1 : option AIAnalysis.t)
    (r2 : Settled (option AIAnalysis.t)) (v : Upload.View) :
  let outstanding :=
    foldl Upload.on v [Upload.Loaded f1; Upload.Loaded f2; Upload.Settles r2] in
  let v' := Upload.on outstanding (Upload.Settles (Returns a1)) in
  Upload.analyzing outstanding = false
  ∧ ReportPothole.imagePreview (Upload.state v') = file_dataUrl f2
  ∧ ReportPothole.aiAnalysis (Upload.state v') = a1
  ∧ ReportPothole.analysisComplete (Upload.state v') = true.
Proof. cbv zeta. by destruct r2. Qed.

(** X26: a stale analysis is submitted: when a first image is analysed, a
    second image then replaces it and its analysis fails, the report
    submitted carries the second image with the first image's analysis,
    although the form shows the error message. *)
Theorem failed_reanalysis_submits_stale
    (f1 f2 : File) (a1 : AIAnalysis.t) (e : JsError) (v : Upload.View)
    (now today : Z) (app : App.State) :
  file_dataUrl f2 ≠ "" →
  let v' :=
    foldl Upload.on v
      [ Upload.Chosen (Some f1); Upload.Loaded f1;
        Upload.Settles (Returns (Some a1));
        Upload.Chosen (Some f2); Upload.Loaded f2;
        Upload.Settles (Throws e) ] in
  Upload.analysisError v' = "Failed to analyze image. Please try again."
  ∧ ∃ r,
      App.reports
        (snd (Upload.handleSubmit (App.handleReportSubmit now today) v' app))
      = r :: App.reports app
      ∧ PotholeReport.imageUrl r = Some (file_dataUrl f2)
      ∧ PotholeReport.aiAnalysis r = Some (kept a1).
Proof.
  intros Hurl. cbv zeta. split; [done|].
  eexists. split; [reflexivity|]. cbn.
  apply String.eqb_neq in Hurl. by rewrite Hurl.
Qed.

Lemma failed_reanalysis_submits_stale_witness :
  ∃ a r,
    AIService.getMockAnalysis halves 0 = (Some a, 9%nat)
    ∧ App.reports
        (snd (Upload.handleSubmit (App.handleReportSubmit 7 7)
                (foldl Upload.on Upload.initial
                   [ Upload.Chosen (Some photo1); Upload.Loaded photo1;
                     Upload.Settles (Returns (Some a));
                     Upload.Chosen (Some photo2); Upload.Loaded photo2;
                     Upload.Settles (Throws (Error "Failed to analyze pothole image")) ])
                (App.mkState App.report mockReports)))
      = r :: mockReports
    ∧ PotholeReport.imageUrl r = Some (file_dataUrl photo2)
    ∧ PotholeReport.aiAnalysis r = Some (kept a).
Proof.
  destruct (getMockAnalysis_defined halves 0) as [a Ha].
  { apply halves_draw. }
  exists a.
  destruct (failed_reanalysis_submits_stale photo1 photo2 a
              (Error "Failed to analyze pothole image") Upload.initial 7 7
              (App.mkState App.report mockReports)) as (_ & r & H1 & H2 & H3).
  { discriminate. }
  exists r. split; [exact Ha|]. split; [exact H1|]. split; [exact H2|exact H3].
Defined.

(** X27: the analysis never decides how a report is filed: the draft the
    form submits takes its severity, priority, status and every other
    member from the form alone, and only its [aiAnalysis] member, the
    confidence, dimensions and risk level of the analysis, depends on the
    analysis; the AI's own severity and priority are dropped.  The draft
    always has an image URL, the default picture when no preview was
    loaded. *)
Theorem submitted_ignores_analysis
    (st : ReportPothole.State) (a : option AIAnalysis.t) :
  ReportPothole.submitted (withAnalysis a st)
  = draftWithAnalysis (kept <$> a) (ReportPothole.submitted st)
  ∧ (∃ url, Draft.imageUrl (ReportPothole.submitted st) = Some url ∧ url ≠ "")
  ∧ (ReportPothole.imagePreview st = "" →
     Draft.imageUrl (ReportPothole.submitted st)
     = Some ReportPothole.defaultImage).
Proof.
  split_and!.
  - by destruct a.
  - unfold ReportPothole.submitted. cbn [Draft.imageUrl].
    destruct (String.eqb_spec (ReportPothole.imagePreview st) "") as [He|Hne].
    + eexists. split; [done|]. discriminate.
    + eexists. split; done.
  - intros Hempty. unfold ReportPothole.submitted. cbn [Draft.imageUrl].
    by rewrite Hempty.
Qed.

Lemma submitted_ignores_analysis_witness :
  Draft.imageUrl (ReportPothole.submitted criticalForm)
  = Some ReportPothole.defaultImage.
Proof.
  apply (submitted_ignores_analysis criticalForm None). reflexivity.
Defined.
